(** * Novelgen-AI: the panel store, the layout resolver and the prompt composer

    A shallow embedding of the state handlers of the [App] component
    (src/unnamed/part_000), of the type declarations (src/unnamed/part_001),
    of the gateway wrappers (src/services/geminiService.ts) and of the two
    pieces of the [Toolbox] component that act on the application state
    (src/components/Toolbox.tsx: [handleSubmit] and the effect keyed on
    [selectedPanel?.id]).

    Conventions.
    - A JavaScript string is a [string]: a sequence of code units below 256.
    - [string | null] is [option string]; JavaScript truthiness of such a
      value is [truthy] (neither [null] nor the empty string).
    - A React handler closes over the state of the render that created it and
      enqueues updates against the live state.  Every handler therefore takes
      the snapshot it closed over ([cl]) and the state it updates ([st]); a
      handler that runs to completion inside one event has [cl = st].
    - [uuidv4 ()] draws from a supply [uuidv4 : nat -> string]; the number of
      draws made so far is threaded through the handlers that call it. *)

From Stdlib Require Import Ascii String.
From stdpp Require Import base decidable option list strings pretty.

Local Open Scope string_scope.

(** ** types.ts *)

Module ComicImage.
Record t := mk { id : string; url : string; prompt : string }.
End ComicImage.

Inductive PanelSplitLayout :=
  | SINGLE | DOUBLE_V | DOUBLE_H | TRIPLE_V | TRIPLE_H
  | QUAD | BIG_LEFT | BIG_RIGHT | BIG_TOP | BIG_BOTTOM.

Inductive AspectRatio := Ratio_1_1 | Ratio_16_9 | Ratio_9_16.

Inductive OverlayType :=
  | NONE | BUBBLE_LEFT | BUBBLE_RIGHT | THOUGHT | WHISPER | SHOUT
  | CAPTION_BOX | ONOMATOPOEIA.

Module ComicPanel.
Record t := mk {
  id : string;
  images : list ComicImage.t;
  splitLayout : PanelSplitLayout;
  caption : string;
  aspectRatio : AspectRatio;
  colSpan : nat;
  overlayType : OverlayType
}.

Definition with_images (imgs : list ComicImage.t) (p : t) : t :=
  mk (id p) imgs (splitLayout p) (caption p) (aspectRatio p) (colSpan p) (overlayType p).
Definition with_layout_images (l : PanelSplitLayout) (imgs : list ComicImage.t) (p : t) : t :=
  mk (id p) imgs l (caption p) (aspectRatio p) (colSpan p) (overlayType p).
Definition with_caption (c : string) (p : t) : t :=
  mk (id p) (images p) (splitLayout p) c (aspectRatio p) (colSpan p) (overlayType p).
Definition with_colSpan (n : nat) (p : t) : t :=
  mk (id p) (images p) (splitLayout p) (caption p) (aspectRatio p) n (overlayType p).
Definition with_overlayType (o : OverlayType) (p : t) : t :=
  mk (id p) (images p) (splitLayout p) (caption p) (aspectRatio p) (colSpan p) o.
End ComicPanel.

Inductive GenerationMode := CREATE | EDIT | STORY.

Record LoadingState := { isLoading : bool; message : string }.

Inductive ComicStyle :=
  | MODERN | SUPERHERO | MANGA | GHIBLI | NOIR | RETRO | CYBERPUNK
  | FANTASY | HORROR | SKETCH | WATERCOLOR.

Inductive GridLayout := STANDARD | CLASSIC | VERTICAL | DYNAMIC | STORYBOARD.

Inductive GutterSize :=
  | Gutter_NONE | Gutter_TINY | Gutter_SMALL | Gutter_MEDIUM | Gutter_LARGE | Gutter_HUGE.

Module Character.
Record t := mk { id : string; name : string; description : string }.
End Character.

#[global] Instance ComicImage_eq_dec : EqDecision ComicImage.t.
Proof. solve_decision. Defined.
#[global] Instance PanelSplitLayout_eq_dec : EqDecision PanelSplitLayout.
Proof. solve_decision. Defined.
#[global] Instance AspectRatio_eq_dec : EqDecision AspectRatio.
Proof. solve_decision. Defined.
#[global] Instance OverlayType_eq_dec : EqDecision OverlayType.
Proof. solve_decision. Defined.
#[global] Instance ComicPanel_eq_dec : EqDecision ComicPanel.t.
Proof. solve_decision. Defined.
#[global] Instance GenerationMode_eq_dec : EqDecision GenerationMode.
Proof. solve_decision. Defined.
#[global] Instance ComicStyle_eq_dec : EqDecision ComicStyle.
Proof. solve_decision. Defined.
#[global] Instance Character_eq_dec : EqDecision Character.t.
Proof. solve_decision. Defined.

(** JavaScript truthiness of a [string] and of a [string | null]. *)
Definition truthy_string (s : string) : bool := negb (String.eqb s "").

Definition truthy (o : option string) : bool :=
  match o with
  | Some s => truthy_string s
  | None => false
  end.

(** [Array.prototype.find]. *)
Definition find_panel (pid : option string) (ps : list ComicPanel.t) : option ComicPanel.t :=
  List.find (fun p => bool_decide (Some (ComicPanel.id p) = pid)) ps.

Definition find_image (sid : option string) (imgs : list ComicImage.t) : option ComicImage.t :=
  List.find (fun img => bool_decide (Some (ComicImage.id img) = sid)) imgs.

(** ** The layout resolver (handleChangeSplitLayout, part_000 lines 205-225) *)

(** [[...].includes(newLayout)]. *)
Definition includes_layout (ls : list PanelSplitLayout) (l : PanelSplitLayout) : bool :=
  bool_decide (l ∈ ls).

(** [let targetCount = 1] followed by the three overriding [if]s. *)
Definition targetCount (newLayout : PanelSplitLayout) : nat :=
  let targetCount := 1 in
  let targetCount :=
    if includes_layout [DOUBLE_V; DOUBLE_H] newLayout then 2 else targetCount in
  let targetCount :=
    if includes_layout [TRIPLE_V; TRIPLE_H; BIG_LEFT; BIG_RIGHT; BIG_TOP; BIG_BOTTOM] newLayout
    then 3 else targetCount in
  let targetCount :=
    if bool_decide (newLayout = QUAD) then 4 else targetCount in
  targetCount.

Section Handlers.

(** The results of the successive calls of [uuidv4 ()]. *)
Variable uuidv4 : nat -> string.

(** [{ id: uuidv4(), url: '', prompt: '' }], the [k]-th draw. *)
Definition emptySlot (k : nat) : ComicImage.t := ComicImage.mk (uuidv4 k) "" "".

(** [for (let i = 0; i < needed; i++) newImages.push({...})]: [needed]
    iterations left, [n] draws made so far. *)
Fixpoint pushEmptySlots (needed : nat) (n : nat) (newImages : list ComicImage.t)
  : list ComicImage.t * nat :=
  match needed with
  | O => (newImages, n)
  | S needed' => pushEmptySlots needed' (S n) (newImages ++ [emptySlot n])
  end.

(** The body of the [map] callback for the panel whose id matches. *)
Definition reconcile (newLayout : PanelSplitLayout) (panel : ComicPanel.t) (n : nat)
  : ComicPanel.t * nat :=
  let newImages := ComicPanel.images panel in
  let targetCount := targetCount newLayout in
  let '(newImages, n) :=
    if (length newImages <? targetCount)%nat then
      let needed := targetCount - length newImages in
      pushEmptySlots needed n newImages
    else if (targetCount <? length newImages)%nat then
      (take targetCount newImages, n)
    else (newImages, n) in
  (ComicPanel.with_layout_images newLayout newImages panel, n).

(** [prev.map(panel => ...)]: the callback runs on the panels from left to
    right, drawing identifiers only for the panels it rebuilds. *)
Fixpoint changeSplitLayout (panelId : string) (newLayout : PanelSplitLayout)
    (prev : list ComicPanel.t) (n : nat) : list ComicPanel.t * nat :=
  match prev with
  | [] => ([], n)
  | panel :: rest =>
      let '(panel', n) :=
        if bool_decide (ComicPanel.id panel ≠ panelId) then (panel, n)
        else reconcile newLayout panel n in
      let '(rest', n) := changeSplitLayout panelId newLayout rest n in
      (panel' :: rest', n)
  end.

End Handlers.

(** ** Strings: [trim], [join], [includes] *)

Definition nl : string := String "010"%char EmptyString.

(** White space and line terminators of [String.prototype.trim] among the
    code units below 256: TAB, LF, VT, FF, CR, SP and NBSP. *)
Definition isWhiteSpace (c : ascii) : bool :=
  existsb (Ascii.eqb c)
    ["009"%char; "010"%char; "011"%char; "012"%char; "013"%char; " "%char; "160"%char].

Fixpoint trimStart (s : string) : string :=
  match s with
  | EmptyString => EmptyString
  | String c s' => if isWhiteSpace c then trimStart s' else s
  end.

Fixpoint trimEnd (s : string) : string :=
  match s with
  | EmptyString => EmptyString
  | String c s' =>
      match trimEnd s' with
      | EmptyString => if isWhiteSpace c then EmptyString else String c EmptyString
      | r => String c r
      end
  end.

Definition trim (s : string) : string := trimEnd (trimStart s).

(** [Array.prototype.join]. *)
Definition join (sep : string) (l : list string) : string := String.concat sep l.

(** [String.prototype.includes]. *)
Fixpoint includes (needle hay : string) : bool :=
  String.prefix needle hay
  || match hay with
     | EmptyString => false
     | String _ hay' => includes needle hay'
     end.

(** ** The prompt composer (part_000 lines 28-31, 43-58, 64-69, 127-128) *)

Definition getStylePrompt (style : ComicStyle) : string :=
  match style with
  | MODERN => "modern comic book style, crisp lines, vibrant colors, digital art"
  | SUPERHERO => "classic american superhero comic style, marvel style, dynamic action poses, bold colors, detailed muscle anatomy, cinematic composition"
  | MANGA => "manga style, anime aesthetic, expressive characters, detailed ink lines, screentones"
  | GHIBLI => "studio ghibli style, hayao miyazaki art style, beautiful painted backgrounds, whimsical, soft colors, highly detailed nature"
  | NOIR => "film noir style, high contrast black and white comic, dramatic shadows, mysterious atmosphere, frank miller style"
  | RETRO => "vintage 1950s comic style, halftone dots, retro color palette, aged paper texture, golden age comics"
  | CYBERPUNK => "cyberpunk style, neon lights, futuristic city, high tech, rain-slicked streets, vibrant neon colors"
  | FANTASY => "fantasy comic style, oil painting aesthetic, epic lighting, dungeons and dragons art style"
  | HORROR => "horror comic style, junji ito style, eerie atmosphere, dark gritty details, high contrast"
  | SKETCH => "rough sketch comic style, pencil textures, loose lines, charcoal, artistic unfinished look"
  | WATERCOLOR => "watercolor comic style, artistic, soft edges, bleeding colors, dreamlike atmosphere"
  end.

(** [`${c.name.trim()}: ${c.description.trim()}`]. *)
Definition characterEntry (c : Character.t) : string :=
  trim (Character.name c) ++ ": " ++ trim (Character.description c).

Definition getCharacterContextString (characters : list Character.t) : string :=
  if (length characters =? 0)%nat then ""
  else join ". " (map characterEntry characters).

(** The line of the template that holds the roster clause. *)
Definition characterClause (characterContext : string) : string :=
  if truthy_string characterContext
  then "Defined Characters (MUST MATCH EXACTLY): " ++ characterContext ++ "."
  else "".

(** The template literal of [handleGenerate], before [.trim()]. *)
Definition fullPromptTemplate (stylePrompt characterContext prompt : string) : string :=
  nl ++ "      Art Style: " ++ stylePrompt ++ "." ++
  nl ++ "      " ++ characterClause characterContext ++
  nl ++ "      Scene Description: " ++ prompt ++ "." ++
  nl ++ "      (Ensure consistent character details). high quality masterpiece." ++
  nl ++ "    ".

Definition fullPrompt (style : ComicStyle) (characters : list Character.t) (prompt : string)
  : string :=
  trim (fullPromptTemplate (getStylePrompt style) (getCharacterContextString characters) prompt).

Definition fullEditPrompt (characters : list Character.t) (editPrompt : string) : string :=
  let characterContext := getCharacterContextString characters in
  if truthy_string characterContext
  then "Edit Instruction: " ++ editPrompt ++ ". (Maintain character consistency: "
       ++ characterContext ++ ")"
  else editPrompt.

(** [style.toLowerCase().replace('_', ' ')]; no style name has an underscore. *)
Definition styleLowerCase (style : ComicStyle) : string :=
  match style with
  | MODERN => "modern" | SUPERHERO => "superhero" | MANGA => "manga"
  | GHIBLI => "ghibli" | NOIR => "noir" | RETRO => "retro"
  | CYBERPUNK => "cyberpunk" | FANTASY => "fantasy" | HORROR => "horror"
  | SKETCH => "sketch" | WATERCOLOR => "watercolor"
  end.

(** The roster clause as the specification words it: the raw name and the
    raw description of every character, joined by a full stop and a space. *)
Definition rosterClause_spec (characters : list Character.t) : string :=
  join ". " (map (fun c => Character.name c ++ ": " ++ Character.description c) characters).

(** ** The generation gateway (geminiService.ts) *)

Module Gateway.

(** What the handlers ask of the service. *)
Inductive Request :=
  | GenerateComicImage (prompt : string) (aspectRatio : AspectRatio)
  | GenerateImageFromSketch (base64Sketch prompt : string)
  | EditComicImage (base64Image editPrompt : string).

(** One part of a candidate: [part.inlineData && part.inlineData.data]. *)
Record Part := { inlineData_data : option string }.

(** What the provider's client hands back, read through the two optional
    chains the wrappers use:
    [response.generatedImages?.[0]?.image?.imageBytes] and
    [response.candidates?.[0]?.content?.parts]. *)
Record Response := {
  imageBytes : option string;
  parts : option (list Part)
}.

(** The provider's promise: [None] when the client call itself rejects. *)
Definition Reply := option Response.

(** The [for (const part of parts)] loop with its [break]. *)
Fixpoint firstInlineImage (ps : list Part) : string :=
  match ps with
  | [] => ""
  | part :: ps' =>
      if truthy (inlineData_data part)
      then "data:image/png;base64," ++ default "" (inlineData_data part)
      else firstInlineImage ps'
  end.

(** [generateComicImage]: [None] is the rethrown error. *)
Definition generateComicImage (r : Reply) : option string :=
  match r with
  | None => None
  | Some response =>
      let base64ImageBytes := imageBytes response in
      if negb (truthy base64ImageBytes) then None
      else Some ("data:image/jpeg;base64," ++ default "" base64ImageBytes)
  end.

(** [generateImageFromSketch] and [editComicImage] read the reply alike. *)
Definition imageFromContent (r : Reply) : option string :=
  match r with
  | None => None
  | Some response =>
      match parts response with
      | None => None
      | Some ps =>
          let newImageBase64 := firstInlineImage ps in
          if negb (truthy_string newImageBase64) then None else Some newImageBase64
      end
  end.

Definition promptOf (q : Request) : string :=
  match q with
  | GenerateComicImage prompt _ => prompt
  | GenerateImageFromSketch _ prompt => prompt
  | EditComicImage _ editPrompt => editPrompt
  end.

(** The value the awaited promise settles to: [Some url] when it resolves,
    [None] when it rejects. *)
Definition settle (q : Request) (r : Reply) : option string :=
  match q with
  | GenerateComicImage _ _ => generateComicImage r
  | GenerateImageFromSketch _ _ => imageFromContent r
  | EditComicImage _ _ => imageFromContent r
  end.

End Gateway.

(** ** The application state ([useState] cells of [App], part_000 lines 9-16) *)

Record AppState := {
  panels : list ComicPanel.t;
  selectedPanelId : option string;
  activeSlotId : option string;
  mode : GenerationMode;
  gridLayout : GridLayout;
  gutterSize : GutterSize;
  characters : list Character.t;
  loadingState : LoadingState
}.

(** [{ isLoading: false, message: '' }]. *)
Definition idle : LoadingState := {| isLoading := false; message := "" |}.

Definition initialState : AppState :=
  {| panels := []; selectedPanelId := None; activeSlotId := None; mode := CREATE;
     gridLayout := STANDARD; gutterSize := Gutter_MEDIUM; characters := [];
     loadingState := idle |}.

(** The state setters. [setPanels] is always called with an updater
    function, which React applies to the live list. *)
Definition setPanels (f : list ComicPanel.t -> list ComicPanel.t) (st : AppState) : AppState :=
  {| panels := f (panels st); selectedPanelId := selectedPanelId st;
     activeSlotId := activeSlotId st; mode := mode st; gridLayout := gridLayout st;
     gutterSize := gutterSize st; characters := characters st;
     loadingState := loadingState st |}.

Definition setSelectedPanelId (v : option string) (st : AppState) : AppState :=
  {| panels := panels st; selectedPanelId := v;
     activeSlotId := activeSlotId st; mode := mode st; gridLayout := gridLayout st;
     gutterSize := gutterSize st; characters := characters st;
     loadingState := loadingState st |}.

Definition setActiveSlotId (v : option string) (st : AppState) : AppState :=
  {| panels := panels st; selectedPanelId := selectedPanelId st;
     activeSlotId := v; mode := mode st; gridLayout := gridLayout st;
     gutterSize := gutterSize st; characters := characters st;
     loadingState := loadingState st |}.

Definition setMode (v : GenerationMode) (st : AppState) : AppState :=
  {| panels := panels st; selectedPanelId := selectedPanelId st;
     activeSlotId := activeSlotId st; mode := v; gridLayout := gridLayout st;
     gutterSize := gutterSize st; characters := characters st;
     loadingState := loadingState st |}.

Definition setCharacters (v : list Character.t) (st : AppState) : AppState :=
  {| panels := panels st; selectedPanelId := selectedPanelId st;
     activeSlotId := activeSlotId st; mode := mode st; gridLayout := gridLayout st;
     gutterSize := gutterSize st; characters := v;
     loadingState := loadingState st |}.

Definition setLoadingState (v : LoadingState) (st : AppState) : AppState :=
  {| panels := panels st; selectedPanelId := selectedPanelId st;
     activeSlotId := activeSlotId st; mode := mode st; gridLayout := gridLayout st;
     gutterSize := gutterSize st; characters := characters st;
     loadingState := v |}.

(** [const selectedPanel = panels.find(p => p.id === selectedPanelId)]. *)
Definition selectedPanel (st : AppState) : option ComicPanel.t :=
  find_panel (selectedPanelId st) (panels st).

(** What a handler does besides updating the state. *)
Inductive Effect :=
  | Alert (msg : string)
  | ConsoleError
  | ScrollToBottom
  | Call (q : Gateway.Request).

(** ** The synchronous handlers (part_000 lines 162-203) *)

Definition handlePanelSelect (id : string) (cl st : AppState) : AppState :=
  if bool_decide (selectedPanelId cl ≠ Some id) then
    let st := setSelectedPanelId (Some id) st in
    match find_panel (Some id) (panels cl) with
    | Some panel =>
        match ComicPanel.images panel with
        | img :: _ => setActiveSlotId (Some (ComicImage.id img)) st
        | [] => st
        end
    | None => st
    end
  else st.

Definition handleSlotSelect (panelId imageId : string) (cl st : AppState) : AppState :=
  let st := setSelectedPanelId (Some panelId) st in
  let st := setActiveSlotId (Some imageId) st in
  let panel := find_panel (Some panelId) (panels cl) in
  let image := panel ≫= fun p => find_image (Some imageId) (ComicPanel.images p) in
  match image with
  | Some image =>
      if negb (truthy_string (ComicImage.url image)) then setMode CREATE st
      else if bool_decide (mode cl = CREATE) then setMode EDIT st
      else st
  | None => st
  end.

Definition handleUpdateCaption (id caption : string) (st : AppState) : AppState :=
  setPanels (map (fun p =>
    if bool_decide (ComicPanel.id p = id) then ComicPanel.with_caption caption p else p)) st.

Definition handleToggleOverlay (id : string) (type : OverlayType) (st : AppState) : AppState :=
  setPanels (map (fun p =>
    if bool_decide (ComicPanel.id p = id) then ComicPanel.with_overlayType type p else p)) st.

Definition handleUpdatePanelSpan (id : string) (span : nat) (st : AppState) : AppState :=
  setPanels (map (fun p =>
    if bool_decide (ComicPanel.id p = id) then ComicPanel.with_colSpan span p else p)) st.

Definition handleDeletePanel (id : string) (cl st : AppState) : AppState :=
  let st := setPanels (List.filter (fun p => bool_decide (ComicPanel.id p ≠ id))) st in
  if bool_decide (selectedPanelId cl = Some id) then
    setActiveSlotId None (setSelectedPanelId None st)
  else st.

(** ** The asynchronous handlers (part_000 lines 60-145) *)

(** What a suspended handler still holds when its [await] settles: the
    render snapshot it closed over and its own locals. *)
Inductive Suspended :=
  | AwaitGenerate (cl : AppState) (prompt : string) (q : Gateway.Request)
  | AwaitEdit (cl : AppState) (selectedPanel : ComicPanel.t) (q : Gateway.Request).

Definition requestOf (k : Suspended) : Gateway.Request :=
  match k with
  | AwaitGenerate _ _ q => q
  | AwaitEdit _ _ q => q
  end.

(** A handler run up to its first [await] or to its end. *)
Record Begun := {
  begun_state : AppState;
  begun_effects : list Effect;
  begun_suspended : option Suspended
}.

(** [handleGenerate] up to the [await]. *)
Definition handleGenerate_begin (prompt : string) (style : ComicStyle)
    (sketchBase64 : option string) (cl st : AppState) : Begun :=
  let fullPrompt := fullPrompt style (characters cl) prompt in
  let st :=
    setLoadingState
      {| isLoading := true;
         message := if truthy sketchBase64 then "Transforming sketch..."
                    else "Generating " ++ styleLowerCase style ++ " art..." |} st in
  let q :=
    if truthy sketchBase64
    then Gateway.GenerateImageFromSketch (default "" sketchBase64) fullPrompt
    else Gateway.GenerateComicImage fullPrompt Ratio_1_1 in
  {| begun_state := st; begun_effects := [Call q];
     begun_suspended := Some (AwaitGenerate cl prompt q) |}.

(** [handleEdit] up to the [await], with its two early returns. *)
Definition handleEdit_begin (editPrompt : string) (cl st : AppState) : Begun :=
  match selectedPanel cl with
  | Some selectedPanel =>
      if negb (truthy (activeSlotId cl))
      then {| begun_state := st; begun_effects := []; begun_suspended := None |}
      else
        match find_image (activeSlotId cl) (ComicPanel.images selectedPanel) with
        | Some activeImage =>
            if negb (truthy_string (ComicImage.url activeImage))
            then {| begun_state := st;
                    begun_effects := [Alert "Please select a slot with an image to edit."];
                    begun_suspended := None |}
            else
              let st :=
                setLoadingState {| isLoading := true; message := "Editing panel..." |} st in
              let q :=
                Gateway.EditComicImage (ComicImage.url activeImage)
                  (fullEditPrompt (characters cl) editPrompt) in
              {| begun_state := st; begun_effects := [Call q];
                 begun_suspended := Some (AwaitEdit cl selectedPanel q) |}
        | None =>
            {| begun_state := st;
               begun_effects := [Alert "Please select a slot with an image to edit."];
               begun_suspended := None |}
        end
  | None => {| begun_state := st; begun_effects := []; begun_suspended := None |}
  end.

Section Resume.

Variable uuidv4 : nat -> string.

(** [handleGenerate] from the [await] on: [result] is the settled promise,
    [n] the number of identifiers drawn so far. *)
Definition handleGenerate_resume (cl : AppState) (prompt : string)
    (result : option string) (st : AppState) (n : nat)
  : AppState * nat * list Effect :=
  let '(st, n, effects) :=
    match result with
    | Some imageUrl =>
        if truthy (selectedPanelId cl) && truthy (activeSlotId cl) then
          match find_panel (selectedPanelId cl) (panels cl) with
          | Some panel =>
              let updatedImages :=
                map (fun img =>
                       if bool_decide (Some (ComicImage.id img) = activeSlotId cl)
                       then ComicImage.mk (ComicImage.id img) imageUrl prompt
                       else img)
                    (ComicPanel.images panel) in
              (setPanels (map (fun p =>
                 if bool_decide (Some (ComicPanel.id p) = selectedPanelId cl)
                 then ComicPanel.with_images updatedImages p else p)) st,
               n, [])
          | None => (st, n, [])
          end
        else
          let newPanel :=
            ComicPanel.mk (uuidv4 n)
              [ComicImage.mk (uuidv4 (S n)) imageUrl prompt]
              SINGLE "" Ratio_1_1 1 NONE in
          (setPanels (fun prev => (prev ++ [newPanel])%list) st, S (S n), [ScrollToBottom])
    | None =>
        (st, n, [ConsoleError; Alert "Failed to generate image. Please try again."])
    end in
  (setLoadingState idle st, n, effects).

(** [handleEdit] from the [await] on. *)
Definition handleEdit_resume (cl : AppState) (selectedPanel : ComicPanel.t)
    (result : option string) (st : AppState) : AppState * list Effect :=
  let '(st, effects) :=
    match result with
    | Some newImageUrl =>
        let updatedImages :=
          map (fun img =>
                 if bool_decide (Some (ComicImage.id img) = activeSlotId cl)
                 then ComicImage.mk (ComicImage.id img) newImageUrl (ComicImage.prompt img)
                 else img)
              (ComicPanel.images selectedPanel) in
        (setPanels (map (fun p =>
           if bool_decide (ComicPanel.id p = ComicPanel.id selectedPanel)
           then ComicPanel.with_images updatedImages p else p)) st, [])
    | None =>
        (st, [ConsoleError; Alert "Failed to edit image. Make sure your prompt is clear."])
    end in
  (setLoadingState idle st, effects).

End Resume.

(** ** The running application: events, suspended requests, effects *)

Record Sys := {
  app : AppState;
  draws : nat;
  suspended : option Suspended;
  log : list Effect
}.

Definition initialSys : Sys :=
  {| app := initialState; draws := 0; suspended := None; log := [] |}.

(** What the two views can deliver to the handlers. *)
Inductive Event :=
  | Submit (prompt : string) (style : ComicStyle) (uploadedSketch : option string)
  | Settle (r : Gateway.Reply)
  | ClickPanel (id : string)
  | ClickSlot (panelId imageId : string)
  | ClickDelete (id : string)
  | ChangeCaption (id caption : string)
  | ClickOverlay (id : string) (type : OverlayType)
  | ClickSpan (span : nat)
  | ClickLayout (layout : PanelSplitLayout)
  | ClickTab (m : GenerationMode)
  | UpdateCharacters (cs : list Character.t).

(** The submit button of [Toolbox] is a [Button] with
    [isLoading={isProcessing}] (Toolbox.tsx lines 471-474), and [Button]
    renders [disabled={isLoading || disabled}] (part_000 lines 355-388): the
    busy flag disables submission; the text area is disabled alike. *)
Definition submitEnabled (st : AppState) : bool := negb (isLoading (loadingState st)).

(** [Toolbox.handleSubmit] (Toolbox.tsx lines 82-94). *)
Definition handleSubmit (prompt : string) (style : ComicStyle) (uploadedSketch : option string)
    (cl st : AppState) : Begun :=
  if negb (truthy_string (trim prompt))
  then {| begun_state := st; begun_effects := []; begun_suspended := None |}
  else
    match mode cl with
    | CREATE =>
        handleGenerate_begin prompt style
          (if truthy uploadedSketch then uploadedSketch else None) cl st
    | EDIT => handleEdit_begin prompt cl st
    | STORY => {| begun_state := st; begun_effects := []; begun_suspended := None |}
    end.

(** The effect of [Toolbox] keyed on [selectedPanel?.id] (Toolbox.tsx lines
    127-131): it runs after the render that follows an event when the
    dependency differs from the one of the previous render. *)
Definition toolboxEffect (before after : AppState) : AppState :=
  if bool_decide (ComicPanel.id <$> selectedPanel before ≠ ComicPanel.id <$> selectedPanel after)
  then
    match selectedPanel after with
    | Some _ => if bool_decide (mode after ≠ STORY) then setMode EDIT after else after
    | None => after
    end
  else after.

Section Run.

Variable uuidv4 : nat -> string.

(** [handleChangeSplitLayout] on the application state. *)
Definition handleChangeSplitLayout (panelId : string) (newLayout : PanelSplitLayout)
    (st : AppState) (n : nat) : AppState * nat :=
  (setPanels (fun prev => fst (changeSplitLayout uuidv4 panelId newLayout prev n)) st,
   snd (changeSplitLayout uuidv4 panelId newLayout (panels st) n)).

(** The suspended handler continues with the settled promise. *)
Definition resume (k : Suspended) (r : Gateway.Reply) (st : AppState) (n : nat)
  : AppState * nat * list Effect :=
  match k with
  | AwaitGenerate cl prompt q =>
      handleGenerate_resume uuidv4 cl prompt (Gateway.settle q r) st n
  | AwaitEdit cl selectedPanel q =>
      let '(st, effects) := handleEdit_resume cl selectedPanel (Gateway.settle q r) st in
      (st, n, effects)
  end.

(** The handlers an event runs, all closed over the current render. *)
Definition dispatch (s : Sys) (e : Event) : Sys :=
  let cl := app s in
  let upd st := {| app := st; draws := draws s; suspended := suspended s; log := log s |} in
  match e with
  | Submit prompt style uploadedSketch =>
      if submitEnabled cl then
        let b := handleSubmit prompt style uploadedSketch cl cl in
        {| app := begun_state b; draws := draws s;
           suspended := begun_suspended b; log := log s ++ begun_effects b |}
      else s
  | Settle r =>
      match suspended s with
      | Some k =>
          let '(st, n, effects) := resume k r cl (draws s) in
          {| app := st; draws := n; suspended := None; log := log s ++ effects |}
      | None => s
      end
  | ClickPanel id => upd (handlePanelSelect id cl cl)
  | ClickSlot panelId imageId =>
      upd (handleSlotSelect panelId imageId cl (handlePanelSelect panelId cl cl))
  | ClickDelete id => upd (handleDeletePanel id cl cl)
  | ChangeCaption id caption => upd (handleUpdateCaption id caption cl)
  | ClickOverlay id type => upd (handleToggleOverlay id type cl)
  | ClickSpan span =>
      match mode cl, selectedPanel cl with
      | EDIT, Some p => upd (handleUpdatePanelSpan (ComicPanel.id p) span cl)
      | _, _ => s
      end
  | ClickLayout layout =>
      match mode cl, selectedPanel cl with
      | EDIT, Some p =>
          let '(st, n) := handleChangeSplitLayout (ComicPanel.id p) layout cl (draws s) in
          {| app := st; draws := n; suspended := suspended s; log := log s |}
      | _, _ => s
      end
  | ClickTab m => upd (setMode m cl)
  | UpdateCharacters cs => upd (setCharacters cs cl)
  end.

(** One event, the render it causes and the effect of that render. *)
Definition step (s : Sys) (e : Event) : Sys :=
  let s' := dispatch s e in
  {| app := toolboxEffect (app s) (app s'); draws := draws s';
     suspended := suspended s'; log := log s' |}.

Definition run (s : Sys) (es : list Event) : Sys := foldl step s es.

End Run.

(** ** The invariant of the data model *)

(** The slot count of a panel is the one its layout tag dictates. *)
Definition slotsMatchLayout (p : ComicPanel.t) : Prop :=
  length (ComicPanel.images p) = targetCount (ComicPanel.splitLayout p).

#[global] Instance slotsMatchLayout_dec p : Decision (slotsMatchLayout p).
Proof. unfold slotsMatchLayout. apply _. Defined.

(** The panel whose slot list a suspended handler will write back: the
    selected panel of the render it closed over.  A generate request with no
    selection appends a panel instead. *)
Definition closurePanel (k : Suspended) : option ComicPanel.t :=
  match k with
  | AwaitGenerate cl _ _ =>
      if truthy (selectedPanelId cl) && truthy (activeSlotId cl)
      then find_panel (selectedPanelId cl) (panels cl)
      else None
  | AwaitEdit _ selectedPanel _ => Some selectedPanel
  end.

Section Invariant.

Variable uuidv4 : nat -> string.

(** An identifier handed out among the first [n] draws. *)
Definition drawnBelow (n : nat) (s : string) : Prop := ∃ j, j < n ∧ s = uuidv4 j.

(** Every panel has the slots of its layout, no two panels share an id, and
    every panel id was drawn from the supply. *)
Definition storeOk (ps : list ComicPanel.t) (n : nat) : Prop :=
  Forall slotsMatchLayout ps ∧
  NoDup (ComicPanel.id <$> ps) ∧
  Forall (fun p => drawnBelow n (ComicPanel.id p)) ps.

(** The slot list held by a suspended handler still fits the layout of the
    live panels it will be written to. *)
Definition suspendedOk (o : option Suspended) (ps : list ComicPanel.t) : Prop :=
  ∀ k pc, o = Some k → closurePanel k = Some pc →
    Forall (fun p => ComicPanel.id p = ComicPanel.id pc →
                     length (ComicPanel.images pc) = targetCount (ComicPanel.splitLayout p)) ps.

Definition sysOk (s : Sys) : Prop :=
  storeOk (panels (app s)) (draws s) ∧ suspendedOk (suspended s) (panels (app s)).

(** A run in which no layout is changed while a request is in flight. *)
Fixpoint serialized (s : Sys) (es : list Event) : Prop :=
  match es with
  | [] => True
  | e :: es' =>
      (∀ l, e = ClickLayout l → suspended s = None) ∧
      serialized (step uuidv4 s e) es'
  end.

End Invariant.

(** ** Data for the examples *)

(** A supply that never repeats: the decimal numerals behind a letter. *)
Definition uuidDemo (k : nat) : string := "u" ++ pretty k.

(** A reply of the image model with image bytes, and a reply of the
    multimodal model with one inline image. *)
Definition replyJpeg (bytes : string) : Gateway.Reply :=
  Some {| Gateway.imageBytes := Some bytes; Gateway.parts := None |}.

Definition replyPng (data : string) : Gateway.Reply :=
  Some {| Gateway.imageBytes := None;
          Gateway.parts := Some [ {| Gateway.inlineData_data := Some data |} ] |}.

(** One generated panel (id [u0]) with its one slot ([u1]), nothing selected. *)
Definition onePanel : Sys :=
  run uuidDemo initialSys [Submit "a cat" NOIR None; Settle (replyJpeg "AAAA")].

(** The user selects the slot, goes back to the create tab and asks for a new
    image for that slot; while the gateway is busy the user opens the tools
    tab and switches the panel to the QUAD layout; then the image arrives. *)
Definition layoutChangeDuringFill : list Event :=
  [ Submit "a cat" NOIR None; Settle (replyJpeg "AAAA");
    ClickSlot "u0" "u1";
    ClickTab CREATE;
    Submit "a dog" NOIR None;
    ClickTab EDIT;
    ClickLayout QUAD;
    Settle (replyJpeg "CCCC") ].

(** The same with an edit request: the user selects the slot, asks for an
    edit and, while the gateway is busy, switches the panel to the QUAD
    layout; then the edit arrives. *)
Definition layoutChangeDuringEdit : list Event :=
  [ Submit "a cat" NOIR None; Settle (replyJpeg "AAAA");
    ClickSlot "u0" "u1";
    Submit "make it red" MODERN None;
    ClickLayout QUAD;
    Settle (replyPng "BBBB") ].

(** Two generated panels ([u0] with slot [u1], [u2] with slot [u3]); the
    first is split in two, which adds the empty slot [u4]; then the second
    panel is selected. *)
Definition secondPanelSelected : Sys :=
  run uuidDemo initialSys
    [ Submit "a cat" NOIR None; Settle (replyJpeg "AAAA");
      Submit "a dog" NOIR None; Settle (replyJpeg "CCCC");
      ClickSlot "u0" "u1";
      ClickLayout DOUBLE_V;
      ClickSlot "u2" "u3" ].

(** A roster whose only name ends in a space. *)
Definition paddedRoster : list Character.t :=
  [Character.mk "c1" "Raven " "black hair, trenchcoat"].

(** ** The panel card (part_000 lines 416-479) *)

Definition getGridConfig (layout : PanelSplitLayout) : string :=
  match layout with
  | SINGLE => "grid-cols-1 grid-rows-1"
  | DOUBLE_V => "grid-cols-2 grid-rows-1"
  | DOUBLE_H => "grid-cols-1 grid-rows-2"
  | TRIPLE_V => "grid-cols-3 grid-rows-1"
  | TRIPLE_H => "grid-cols-1 grid-rows-3"
  | QUAD => "grid-cols-2 grid-rows-2"
  | BIG_LEFT => "grid-cols-2 grid-rows-2"
  | BIG_RIGHT => "grid-cols-2 grid-rows-2"
  | BIG_TOP => "grid-cols-2 grid-rows-2"
  | BIG_BOTTOM => "grid-cols-2 grid-rows-2"
  end.

(** The style object of a slot: its [gridColumn] and [gridRow] entries. *)
Record ItemStyle := { gridColumn : option string; gridRow : option string }.

Definition noStyle : ItemStyle := {| gridColumn := None; gridRow := None |}.

(** The four [if]s of [getItemStyle], in their order. *)
Definition getItemStyle (layout : PanelSplitLayout) (index : nat) : ItemStyle :=
  if bool_decide (layout = BIG_LEFT) && (index =? 0)%nat
  then {| gridColumn := None; gridRow := Some "span 2" |}
  else if bool_decide (layout = BIG_RIGHT) && (index =? 2)%nat
  then {| gridColumn := Some "2"; gridRow := Some "1 / span 2" |}
  else if bool_decide (layout = BIG_TOP) && (index =? 0)%nat
  then {| gridColumn := Some "span 2"; gridRow := None |}
  else if bool_decide (layout = BIG_BOTTOM) && (index =? 2)%nat
  then {| gridColumn := Some "span 2"; gridRow := None |}
  else noStyle.

(** [getColSpanClass]. *)
Definition getColSpanClass (isVerticalLayout : bool) (colSpan : nat) : string :=
  if isVerticalLayout then "w-full"
  else match colSpan with
       | 2 => "col-span-1 md:col-span-2"
       | 3 => "col-span-1 md:col-span-3"
       | 4 => "col-span-1 md:col-span-4"
       | 5 => "col-span-1 md:col-span-5"
       | 6 => "col-span-1 md:col-span-6"
       | _ => "col-span-1"
       end.

(** How the style sheet reads these values: the number of tracks a class
    list declares for a grid axis (one when it declares none), and the number
    of tracks a placement value spans. *)
Definition tracks (axis classes : string) : nat :=
  default 1 (List.find (fun n => includes (axis ++ pretty n) classes) (seq 1 6)).

Definition spanOf (placement : option string) : nat :=
  match placement with
  | Some v => if includes "span 2" v then 2 else 1
  | None => 1
  end.

Definition cellsOf (style : ItemStyle) : nat :=
  (spanOf (gridColumn style) * spanOf (gridRow style))%nat.

(** ** The page grid (part_000 lines 227-253, Toolbox.tsx lines 158-165) *)

#[global] Instance GridLayout_eq_dec : EqDecision GridLayout.
Proof. solve_decision. Defined.
#[global] Instance GutterSize_eq_dec : EqDecision GutterSize.
Proof. solve_decision. Defined.

Definition gapClass (gutterSize : GutterSize) : string :=
  match gutterSize with
  | Gutter_NONE => "gap-0"
  | Gutter_TINY => "gap-2"
  | Gutter_SMALL => "gap-5"
  | Gutter_MEDIUM => "gap-8"
  | Gutter_LARGE => "gap-12"
  | Gutter_HUGE => "gap-16"
  end.

Definition getLayoutClasses (gridLayout : GridLayout) (gutterSize : GutterSize) : string :=
  let gapClass := gapClass gutterSize in
  let paddingClass := if bool_decide (gutterSize = Gutter_NONE) then "p-0" else "p-8" in
  match gridLayout with
  | STANDARD =>
      "grid grid-cols-1 md:grid-cols-3 " ++ gapClass ++ " " ++ paddingClass
      ++ " grid-flow-dense auto-rows-min"
  | CLASSIC =>
      "grid grid-cols-1 md:grid-cols-2 " ++ gapClass ++ " " ++ paddingClass
      ++ " grid-flow-dense auto-rows-min"
  | VERTICAL => "flex flex-col items-center " ++ gapClass ++ " p-8 max-w-4xl mx-auto"
  | DYNAMIC =>
      "grid grid-cols-2 md:grid-cols-4 " ++ gapClass ++ " " ++ paddingClass
      ++ " grid-flow-dense auto-rows-min"
  | STORYBOARD =>
      "grid grid-cols-2 md:grid-cols-6 " ++ gapClass ++ " " ++ paddingClass
      ++ " grid-flow-dense auto-rows-min"
  end.

Definition maxSpanForLayout (gridLayout : GridLayout) : nat :=
  match gridLayout with
  | STANDARD => 3
  | CLASSIC => 2
  | VERTICAL => 1
  | DYNAMIC => 4
  | STORYBOARD => 6
  end.

(** ** The prompt of the last panel (part_000 lines 20-26) *)

(** [img.prompt && img.prompt.trim().length > 0]. *)
Definition hasPrompt (img : ComicImage.t) : bool :=
  truthy_string (ComicImage.prompt img)
  && (0 <? String.length (trim (ComicImage.prompt img)))%nat.

Definition getLastPanelPrompt (panels : list ComicPanel.t) : string :=
  if (length panels =? 0)%nat then ""
  else
    match last panels with
    | Some lastPanel =>
        let reversedImages := rev (ComicPanel.images lastPanel) in
        match List.find hasPrompt reversedImages with
        | Some lastImageWithPrompt => ComicImage.prompt lastImageWithPrompt
        | None => ""
        end
    | None => ""
    end.

(** ** The roster editor (Toolbox.tsx lines 96-99, 146-156) *)

Inductive CharacterField := Field_name | Field_description.

(** [{ ...c, [field]: value }]. *)
Definition setCharacterField (field : CharacterField) (value : string) (c : Character.t)
  : Character.t :=
  match field with
  | Field_name => Character.mk (Character.id c) value (Character.description c)
  | Field_description => Character.mk (Character.id c) (Character.name c) value
  end.

Definition handleUpdateCharacter (id : string) (field : CharacterField) (value : string)
    (characters : list Character.t) : list Character.t :=
  map (fun c => if bool_decide (Character.id c = id) then setCharacterField field value c else c)
      characters.

Definition handleRemoveCharacter (id : string) (characters : list Character.t)
  : list Character.t :=
  List.filter (fun c => bool_decide (Character.id c ≠ id)) characters.

(** [handleAddCharacter] with the identifier [uuidv4 ()] returned. *)
Definition handleAddCharacter (newId : string) (characters : list Character.t)
  : list Character.t :=
  (characters ++ [Character.mk newId "" ""])%list.

(** The copy of [getCharacterContextString] that [Toolbox] keeps: no [trim]. *)
Definition toolboxCharacterContextString (characters : list Character.t) : string :=
  if (length characters =? 0)%nat then ""
  else join ". " (map (fun c => Character.name c ++ ": " ++ Character.description c) characters).

(** ** What the gateway wrappers send (geminiService.ts lines 12-22, 39-67, 97-122) *)

(** [s.split(sep)] for a separator that is not empty: [skip] counts the code
    units of a separator just found that are still to be passed over, [cur] is
    the piece being read. *)
Fixpoint split_go (sep : string) (skip : nat) (cur : string) (s : string) : list string :=
  match s with
  | EmptyString => [cur]
  | String c s' =>
      match skip with
      | S k => split_go sep k cur s'
      | O =>
          if String.prefix sep s
          then cur :: split_go sep (String.length sep - 1) EmptyString s'
          else split_go sep 0 (cur ++ String c EmptyString) s'
      end
  end.

Definition split (sep s : string) : list string := split_go sep 0 EmptyString s.

(** [x.includes('base64,') ? x.split('base64,')[1] : x]; the second piece
    exists whenever the separator occurs. *)
Definition extractBase64 (x : string) : string :=
  if includes "base64," x then default "" (split "base64," x !! 1) else x.

Module Service.

(** The argument of [ai.models.generateImages]. *)
Record ImagesRequest := {
  images_model : string;
  images_prompt : string;
  numberOfImages : nat;
  outputMimeType : string;
  images_aspectRatio : string
}.

(** The argument of [ai.models.generateContent] with an inline image. *)
Record ContentRequest := {
  content_model : string;
  inline_data : string;
  inline_mimeType : string;
  content_text : string
}.

End Service.

Definition aspectRatioString (a : AspectRatio) : string :=
  match a with
  | Ratio_1_1 => "1:1"
  | Ratio_16_9 => "16:9"
  | Ratio_9_16 => "9:16"
  end.

Definition generateComicImage_request (prompt : string) (aspectRatio : AspectRatio)
  : Service.ImagesRequest :=
  {| Service.images_model := "imagen-4.0-generate-001";
     Service.images_prompt := prompt;
     Service.numberOfImages := 1;
     Service.outputMimeType := "image/jpeg";
     Service.images_aspectRatio := aspectRatioString aspectRatio |}.

Definition generateImageFromSketch_request (base64Sketch prompt : string)
  : Service.ContentRequest :=
  {| Service.content_model := "gemini-2.5-flash-image";
     Service.inline_data := extractBase64 base64Sketch;
     Service.inline_mimeType := "image/jpeg";
     Service.content_text :=
       "Turn this rough sketch into a finished comic panel. " ++ prompt
       ++ ". Maintain the composition of the sketch but apply the requested art style heavily." |}.

Definition editComicImage_request (base64Image editPrompt : string) : Service.ContentRequest :=
  {| Service.content_model := "gemini-2.5-flash-image";
     Service.inline_data := extractBase64 base64Image;
     Service.inline_mimeType := "image/jpeg";
     Service.content_text := editPrompt |}.

(** ** The narrative assistant (geminiService.ts lines 151-199, part_000 lines
    147-160, Toolbox.tsx lines 101-125) *)

Inductive NarrativeType := PLOT | DIALOGUE | NEXT_PANEL.

#[global] Instance NarrativeType_eq_dec : EqDecision NarrativeType.
Proof. solve_decision. Defined.

(** The double quote. *)
Definition dq : string := String "034"%char EmptyString.

Definition indent8 : string := "        ".

(** The three templates of [generateNarrativeElement]. *)
Definition narrativePrompt (type : NarrativeType) (context characterContext : string) : string :=
  match type with
  | PLOT =>
      "You are a comic book writer. Generate a single, visually descriptive scene idea for a comic panel based on this theme (or random if empty): "
      ++ dq ++ context ++ dq ++ ". " ++ nl ++ indent8
      ++ (if truthy_string characterContext
          then "Include these established characters in the scene: " ++ characterContext
          else "")
      ++ nl ++ indent8
      ++ "Output ONLY the visual description suitable for an image generator. Keep it under 40 words. Do not surround the text with quotes."
  | DIALOGUE =>
      "You are a comic book writer. Write a short, punchy dialogue or caption (max 15 words) for a panel described as: "
      ++ dq ++ context ++ dq ++ ". " ++ nl ++ indent8
      ++ "Output ONLY the text to be written in the speech bubble/caption box. Do not include character names like 'Hero:'. Do not surround with quotes."
  | NEXT_PANEL =>
      "You are a comic book writer. " ++ nl ++ indent8
      ++ "CONTEXT - Previous Panel Description: " ++ dq ++ context ++ dq ++ "." ++ nl ++ indent8
      ++ (if truthy_string characterContext
          then "CONTEXT - Established Characters/Setting: " ++ characterContext ++ "."
          else "")
      ++ nl ++ nl ++ indent8
      ++ "Task: Write a visual description for the NEXT panel to continue the story."
      ++ nl ++ indent8 ++ nl ++ indent8
      ++ "CRITICAL INSTRUCTION: You MUST explicitly mention and describe the characters based on the 'Established Characters' context provided. "
      ++ nl ++ indent8
      ++ "If the previous panel had multiple characters, ensure the next panel maintains their distinct identities."
      ++ nl ++ indent8 ++ nl ++ indent8
      ++ "VERY IMPORTANT: Do NOT use vague pronouns like 'he', 'she', or 'they'. ALWAYS follow names with a brief visual trait from the context."
      ++ nl ++ indent8
      ++ "Example: Instead of " ++ dq ++ "Alice jumps" ++ dq ++ ", write " ++ dq
      ++ "Alice, the blonde woman in red armor, jumps" ++ dq ++ "."
      ++ nl ++ nl ++ indent8
      ++ "Output ONLY the visual description for the image generator. Keep it under 40 words. Do not surround with quotes."
  end.

(** The character class of the clean-up pattern: a double or a single quote. *)
Definition isQuote (c : ascii) : bool :=
  Ascii.eqb c "034"%char || Ascii.eqb c "039"%char.

Definition dropFirstQuote (s : string) : string :=
  match s with
  | String c s' => if isQuote c then s' else s
  | EmptyString => EmptyString
  end.

Fixpoint dropLastQuote (s : string) : string :=
  match s with
  | EmptyString => EmptyString
  | String c EmptyString => if isQuote c then EmptyString else s
  | String c s' => String c (dropLastQuote s')
  end.

(** [text.replace(/^[...]|[...]$/g, '')] with the class of [isQuote]: the
    pattern matches a quote at the very start and a quote at the very end;
    a text that is one quote is matched once, at the start. *)
Definition stripQuotes (text : string) : string := dropLastQuote (dropFirstQuote text).

(** [generateNarrativeElement] on the reply: [None] is a rejected client call
    (rethrown), [Some text] a response whose [text] may be missing. *)
Definition generateNarrativeElement (r : option (option string)) : option string :=
  match r with
  | None => None
  | Some response_text =>
      let text := default "" (trim <$> response_text) in
      Some (stripQuotes text)
  end.

(** [handleNarrativeAssist] up to the [await]: the busy flag and the prompt. *)
Definition handleNarrativeAssist_begin (type : NarrativeType) (context : string)
    (cl st : AppState) : AppState * string :=
  (setLoadingState {| isLoading := true; message := "Consulting AI Storywriter..." |} st,
   narrativePrompt type context (getCharacterContextString (characters cl))).

(** [handleNarrativeAssist] from the [await] on: the returned text, the
    state and the effects. *)
Definition handleNarrativeAssist_resume (result : option string) (st : AppState)
  : string * AppState * list Effect :=
  match result with
  | Some result => (result, setLoadingState idle st, [])
  | None =>
      ("", setLoadingState idle st,
       [ConsoleError; Alert "Failed to generate narrative element."])
  end.

(** The [useState] cells of [Toolbox] (Toolbox.tsx lines 51-54). *)
Record ToolboxState := {
  tb_prompt : string;
  tb_style : ComicStyle;
  tb_narrativeContext : string;
  tb_uploadedSketch : option string
}.

Definition initialToolbox : ToolboxState :=
  {| tb_prompt := ""; tb_style := MODERN; tb_narrativeContext := "";
     tb_uploadedSketch := None |}.

(** The context [handleStoryAssist] sends; [lastPanelPrompt] is the property
    [App] computes with [getLastPanelPrompt]. *)
Definition storyContext (type : NarrativeType) (cl : AppState) (tb : ToolboxState) : string :=
  let context := tb_narrativeContext tb in
  let lastPanelPrompt := getLastPanelPrompt (panels cl) in
  match type, selectedPanel cl with
  | DIALOGUE, Some selectedPanel =>
      match find_image (activeSlotId cl) (ComicPanel.images selectedPanel) with
      | Some activeImage => ComicImage.prompt activeImage
      | None =>
          match ComicPanel.images selectedPanel with
          | img :: _ => if truthy_string (ComicImage.prompt img) then ComicImage.prompt img else ""
          | [] => ""
          end
      end
  | _, _ =>
      if bool_decide (type = NEXT_PANEL) && truthy_string lastPanelPrompt
      then lastPanelPrompt
      else context
  end.

(** [handleStoryAssist] after [onNarrativeAssist] has returned [result]. *)
Definition handleStoryAssist_resume (type : NarrativeType) (cl : AppState) (result : string)
    (tb : ToolboxState) (st : AppState) : ToolboxState * AppState :=
  let '(tb, st) :=
    match type, selectedPanel cl with
    | PLOT, _ | NEXT_PANEL, _ =>
        ({| tb_prompt := result; tb_style := tb_style tb;
            tb_narrativeContext := tb_narrativeContext tb;
            tb_uploadedSketch := tb_uploadedSketch tb |},
         setMode CREATE st)
    | DIALOGUE, Some selectedPanel =>
        (tb, handleUpdateCaption (ComicPanel.id selectedPanel) result st)
    | DIALOGUE, None => (tb, st)
    end in
  ({| tb_prompt := tb_prompt tb; tb_style := tb_style tb;
      tb_narrativeContext := ""; tb_uploadedSketch := tb_uploadedSketch tb |}, st).

(** One story assist from the click to the end, the reply arriving with no
    other event in between: the prompt sent, the two states and the effects. *)
Definition storyAssist (type : NarrativeType) (r : option (option string))
    (tb : ToolboxState) (st : AppState) : string * ToolboxState * AppState * list Effect :=
  let context := storyContext type st tb in
  let '(st1, sent) := handleNarrativeAssist_begin type context st st in
  let '(result, st2, effects) :=
    handleNarrativeAssist_resume (generateNarrativeElement r) st1 in
  let '(tb', st3) := handleStoryAssist_resume type st result tb st2 in
  (sent, tb', st3, effects).

(** ** Identity of the panels *)

(** No two panels share an id and every panel id is among the first [n]
    draws of the supply. *)
Definition idsOk (uuidv4 : nat -> string) (ps : list ComicPanel.t) (n : nat) : Prop :=
  NoDup (ComicPanel.id <$> ps) ∧
  Forall (fun p => drawnBelow uuidv4 n (ComicPanel.id p)) ps.

(** ** More data for the examples *)

(** The panel of [onePanel] with its slot selected: edit mode. *)
Definition slotSelected : Sys := run uuidDemo onePanel [ClickSlot "u0" "u1"].

(** The same after a click on the create tab. *)
Definition slotSelectedForFill : Sys :=
  run uuidDemo onePanel [ClickSlot "u0" "u1"; ClickTab CREATE].

(** A panel whose second slot has a prompt of white space only. *)
Definition promptedPanel : ComicPanel.t :=
  ComicPanel.mk "p" [ComicImage.mk "a" "data:image/jpeg;base64,AAAA" "a cat";
                     ComicImage.mk "b" "" " "]
    DOUBLE_V "" Ratio_1_1 1 NONE.

(** A panel whose slots have no prompt. *)
Definition blankPanel : ComicPanel.t :=
  ComicPanel.mk "p" [ComicImage.mk "a" "" ""; ComicImage.mk "b" "" " "]
    DOUBLE_V "" Ratio_1_1 1 NONE.

(** * Theorems *)

(** ** The layout resolver *)

Section LayoutResolver.

Variable uuidv4 : nat -> string.

Local Open Scope list_scope.
Local Open Scope nat_scope.

Lemma targetCount_table (l : PanelSplitLayout) :
  targetCount l =
  match l with
  | SINGLE => 1
  | DOUBLE_V | DOUBLE_H => 2
  | TRIPLE_V | TRIPLE_H | BIG_LEFT | BIG_RIGHT | BIG_TOP | BIG_BOTTOM => 3
  | QUAD => 4
  end.
Proof. by destruct l. Qed.

Lemma pushEmptySlots_seq (needed n : nat) (imgs : list ComicImage.t) :
  pushEmptySlots uuidv4 needed n imgs
  = (imgs ++ (emptySlot uuidv4 <$> seq n needed), n + needed).
Proof.
  revert n imgs. induction needed as [|k IH]; intros n imgs; simpl.
  - by rewrite app_nil_r, Nat.add_0_r.
  - rewrite IH, <- app_assoc. simpl. f_equal. lia.
Qed.

(** The three cases of the reconciliation, in closed form. *)
Lemma reconcile_grow (l : PanelSplitLayout) (p : ComicPanel.t) (n : nat) :
  length (ComicPanel.images p) < targetCount l →
  reconcile uuidv4 l p n
  = (ComicPanel.with_layout_images l
       (ComicPanel.images p
        ++ (emptySlot uuidv4 <$> seq n (targetCount l - length (ComicPanel.images p)))) p,
     n + (targetCount l - length (ComicPanel.images p))).
Proof.
  intros Hlt. unfold reconcile.
  destruct (Nat.ltb_spec (length (ComicPanel.images p)) (targetCount l)); [|lia].
  by rewrite pushEmptySlots_seq.
Qed.

Lemma reconcile_shrink (l : PanelSplitLayout) (p : ComicPanel.t) (n : nat) :
  targetCount l < length (ComicPanel.images p) →
  reconcile uuidv4 l p n
  = (ComicPanel.with_layout_images l (take (targetCount l) (ComicPanel.images p)) p, n).
Proof.
  intros Hlt. unfold reconcile.
  destruct (Nat.ltb_spec (length (ComicPanel.images p)) (targetCount l)); [lia|].
  by destruct (Nat.ltb_spec (targetCount l) (length (ComicPanel.images p))); [|lia].
Qed.

Lemma reconcile_same (l : PanelSplitLayout) (p : ComicPanel.t) (n : nat) :
  length (ComicPanel.images p) = targetCount l →
  reconcile uuidv4 l p n = (ComicPanel.with_layout_images l (ComicPanel.images p) p, n).
Proof.
  intros Heq. unfold reconcile.
  destruct (Nat.ltb_spec (length (ComicPanel.images p)) (targetCount l)); [lia|].
  by destruct (Nat.ltb_spec (targetCount l) (length (ComicPanel.images p))); [lia|].
Qed.

Lemma reconcile_length (l : PanelSplitLayout) (p : ComicPanel.t) (n : nat) :
  length (ComicPanel.images (reconcile uuidv4 l p n).1) = targetCount l.
Proof.
  destruct (Nat.lt_total (length (ComicPanel.images p)) (targetCount l)) as [H|[H|H]].
  - rewrite reconcile_grow by done. simpl.
    rewrite length_app, length_fmap, length_seq. lia.
  - by rewrite reconcile_same.
  - rewrite reconcile_shrink by done. simpl. rewrite length_take. lia.
Qed.

Lemma reconcile_id (l : PanelSplitLayout) (p : ComicPanel.t) (n : nat) :
  ComicPanel.id (reconcile uuidv4 l p n).1 = ComicPanel.id p.
Proof. unfold reconcile. by repeat case_match. Qed.

Lemma reconcile_layout (l : PanelSplitLayout) (p : ComicPanel.t) (n : nat) :
  ComicPanel.splitLayout (reconcile uuidv4 l p n).1 = l.
Proof. unfold reconcile. by repeat case_match. Qed.

Lemma reconcile_draws (l : PanelSplitLayout) (p : ComicPanel.t) (n : nat) :
  n ≤ (reconcile uuidv4 l p n).2.
Proof.
  destruct (Nat.lt_total (length (ComicPanel.images p)) (targetCount l)) as [H|[H|H]].
  - rewrite reconcile_grow by done. simpl. lia.
  - by rewrite reconcile_same.
  - by rewrite reconcile_shrink.
Qed.

(** Unfolding of the [map] over a non-empty list. *)
Lemma changeSplitLayout_cons pid l p rest n :
  changeSplitLayout uuidv4 pid l (p :: rest) n
  = if bool_decide (ComicPanel.id p ≠ pid)
    then (p :: (changeSplitLayout uuidv4 pid l rest n).1,
          (changeSplitLayout uuidv4 pid l rest n).2)
    else ((reconcile uuidv4 l p n).1
            :: (changeSplitLayout uuidv4 pid l rest (reconcile uuidv4 l p n).2).1,
          (changeSplitLayout uuidv4 pid l rest (reconcile uuidv4 l p n).2).2).
Proof.
  simpl. case_bool_decide.
  - by destruct (changeSplitLayout uuidv4 pid l rest n).
  - destruct (reconcile uuidv4 l p n) as [p' n']. simpl.
    by destruct (changeSplitLayout uuidv4 pid l rest n').
Qed.

Lemma changeSplitLayout_draws pid l prev n :
  n ≤ (changeSplitLayout uuidv4 pid l prev n).2.
Proof.
  revert n. induction prev as [|p rest IH]; intros n; [done|].
  rewrite changeSplitLayout_cons. case_bool_decide; simpl; [done|].
  etrans; [apply (reconcile_draws l p n)|apply IH].
Qed.

(** Every panel keeps its position; the ones with the given id are rebuilt
    by [reconcile] at some draw count not below the initial one. *)
Lemma changeSplitLayout_lookup pid l prev n i p :
  prev !! i = Some p →
  ∃ k, n ≤ k ∧
    (changeSplitLayout uuidv4 pid l prev n).1 !! i
    = Some (if bool_decide (ComicPanel.id p ≠ pid) then p else (reconcile uuidv4 l p k).1).
Proof.
  revert n i. induction prev as [|q rest IH]; intros n i Hi; [done|].
  rewrite changeSplitLayout_cons. destruct i as [|i]; simpl in Hi.
  - injection Hi as ->. exists n. split; [done|].
    by destruct (bool_decide (ComicPanel.id p ≠ pid)).
  - destruct (bool_decide (ComicPanel.id q ≠ pid)); simpl.
    + by apply IH.
    + destruct (IH (reconcile uuidv4 l q n).2 i Hi) as (k & Hk & Hlk).
      exists k. split; [|done]. etrans; [apply (reconcile_draws l q n)|done].
Qed.

Lemma changeSplitLayout_length pid l prev n :
  length (changeSplitLayout uuidv4 pid l prev n).1 = length prev.
Proof.
  revert n. induction prev as [|p rest IH]; intros n; [done|].
  rewrite changeSplitLayout_cons. case_bool_decide; simpl; by rewrite IH.
Qed.

(** A list whose matching panels already have the target count and the
    target tag is left alone, and no identifier is drawn. *)
Lemma changeSplitLayout_settled pid l prev n :
  Forall (fun p => ComicPanel.id p = pid →
                   ComicPanel.splitLayout p = l ∧
                   length (ComicPanel.images p) = targetCount l) prev →
  changeSplitLayout uuidv4 pid l prev n = (prev, n).
Proof.
  induction 1 as [|p rest Hp _ IH]; [done|].
  rewrite changeSplitLayout_cons, IH. case_bool_decide as Hid; simpl; [done|].
  destruct Hp as [Hl Hn]; [by destruct (decide (ComicPanel.id p = pid))|].
  rewrite reconcile_same by done. simpl. rewrite IH. simpl.
  do 2 f_equal. destruct p; simpl in *; by subst.
Qed.

Lemma changeSplitLayout_result_settled pid l prev n :
  Forall (fun p => ComicPanel.id p = pid →
                   ComicPanel.splitLayout p = l ∧
                   length (ComicPanel.images p) = targetCount l)
         (changeSplitLayout uuidv4 pid l prev n).1.
Proof.
  revert n. induction prev as [|p rest IH]; intros n; [by constructor|].
  rewrite changeSplitLayout_cons. case_bool_decide as Hid; simpl.
  - constructor; [done|apply IH].
  - constructor; [|apply IH]. intros _.
    by rewrite reconcile_layout, reconcile_length.
Qed.

End LayoutResolver.

Section LayoutChange.

Variable uuidv4 : nat -> string.

Local Open Scope list_scope.
Local Open Scope nat_scope.

Lemma handleChangeSplitLayout_panels pid l st n :
  panels (handleChangeSplitLayout uuidv4 pid l st n).1
  = (changeSplitLayout uuidv4 pid l (panels st) n).1.
Proof. done. Qed.

Lemma handleChangeSplitLayout_draws pid l st n :
  (handleChangeSplitLayout uuidv4 pid l st n).2
  = (changeSplitLayout uuidv4 pid l (panels st) n).2.
Proof. done. Qed.

(** Identifiers drawn at or after position [n] differ from one another and
    from every identifier drawn before [n], when the supply never repeats. *)
Lemma fresh_draws (imgs : list ComicImage.t) (n k needed : nat) :
  Inj (=) (=) uuidv4 →
  Forall (fun img => ∃ j, j < n ∧ ComicImage.id img = uuidv4 j) imgs →
  n ≤ k →
  NoDup (ComicImage.id <$> (emptySlot uuidv4 <$> seq k needed)) ∧
  Forall (fun new => ComicImage.id new ∉ (ComicImage.id <$> imgs))
         (emptySlot uuidv4 <$> seq k needed).
Proof.
  intros Hinj Hold Hnk. split.
  - rewrite <- list_fmap_compose. apply NoDup_fmap_2; [|apply NoDup_seq].
    intros a b Hab. by apply Hinj.
  - apply Forall_fmap, Forall_forall. intros j Hj%elem_of_seq. simpl.
    intros (img & Hid & Himg)%list_elem_of_fmap.
    rewrite Forall_forall in Hold. destruct (Hold img Himg) as (j' & Hj' & Hid').
    rewrite Hid' in Hid. apply Hinj in Hid. lia.
Qed.

(** C1. For every panel and every target split-layout tag, after
    [handleChangeSplitLayout] the panel carrying the given id sits at its
    old position, carries the new tag, and has exactly the number of image
    slots of the fixed table: SINGLE 1; DOUBLE_V and DOUBLE_H 2; TRIPLE_V,
    TRIPLE_H, BIG_LEFT, BIG_RIGHT, BIG_TOP and BIG_BOTTOM 3; QUAD 4. *)
Theorem layout_change_slot_count pid l st n i p :
  panels st !! i = Some p →
  ComicPanel.id p = pid →
  ∃ p', panels (handleChangeSplitLayout uuidv4 pid l st n).1 !! i = Some p' ∧
        ComicPanel.id p' = pid ∧
        ComicPanel.splitLayout p' = l ∧
        length (ComicPanel.images p') =
        match l with
        | SINGLE => 1
        | DOUBLE_V | DOUBLE_H => 2
        | TRIPLE_V | TRIPLE_H | BIG_LEFT | BIG_RIGHT | BIG_TOP | BIG_BOTTOM => 3
        | QUAD => 4
        end.
Proof.
  intros Hi Hid. rewrite handleChangeSplitLayout_panels.
  destruct (changeSplitLayout_lookup uuidv4 pid l _ n i p Hi) as (k & _ & Hk).
  rewrite bool_decide_eq_false_2 in Hk by (intros Hne; by apply Hne).
  eexists. split; [exact Hk|].
  rewrite reconcile_id, reconcile_layout, reconcile_length, targetCount_table.
  by destruct l.
Qed.

(** C2. For every panel hit by a layout change: when the target count
    exceeds the number of slots the panel holds, the existing slots keep
    their identity, order and content and only empty slots (identifier
    freshly drawn, empty url, empty prompt) are appended at the end, as many
    as are missing; the drawn identifiers were never drawn before, so with a
    supply that never repeats they differ from one another and from those of
    the existing slots.  When the target count [N] is below the number of
    slots, exactly the first [N] slots are kept, unchanged and in order, and
    the others are gone from the panel.  When the two agree the slots are
    left as they are. *)
Theorem layout_change_slots pid l st n i p :
  panels st !! i = Some p →
  ComicPanel.id p = pid →
  ∃ p', panels (handleChangeSplitLayout uuidv4 pid l st n).1 !! i = Some p' ∧
    (length (ComicPanel.images p) < targetCount l →
       ∃ k, n ≤ k ∧
         let new := (fun j => ComicImage.mk (uuidv4 j) "" "")
                      <$> seq k (targetCount l - length (ComicPanel.images p)) in
         ComicPanel.images p' = ComicPanel.images p ++ new ∧
         (Inj (=) (=) uuidv4 →
          Forall (fun img => ∃ j, j < n ∧ ComicImage.id img = uuidv4 j)
                 (ComicPanel.images p) →
          NoDup (ComicImage.id <$> new) ∧
          Forall (fun s => ComicImage.id s ∉ (ComicImage.id <$> ComicPanel.images p)) new)) ∧
    (targetCount l < length (ComicPanel.images p) →
       ComicPanel.images p' = take (targetCount l) (ComicPanel.images p)) ∧
    (length (ComicPanel.images p) = targetCount l →
       ComicPanel.images p' = ComicPanel.images p).
Proof.
  intros Hi Hid. rewrite handleChangeSplitLayout_panels.
  destruct (changeSplitLayout_lookup uuidv4 pid l _ n i p Hi) as (k & Hnk & Hk).
  rewrite bool_decide_eq_false_2 in Hk by (intros Hne; by apply Hne).
  eexists. split; [exact Hk|]. split; [|split].
  - intros Hlt. exists k. split; [done|]. rewrite reconcile_grow by done.
    split; [done|]. intros Hinj Hold. by apply (fresh_draws _ n).
  - intros Hlt. by rewrite reconcile_shrink.
  - intros Heq. by rewrite reconcile_same.
Qed.

(** C10. For every panel list and every tag [L], changing the layout of a
    panel to [L] twice in a row gives what changing it once gives: the
    second change leaves every panel, slot identifiers included, as it is,
    and draws no identifier. *)
Theorem layout_change_idempotent pid l st n :
  handleChangeSplitLayout uuidv4 pid l
    (handleChangeSplitLayout uuidv4 pid l st n).1
    (handleChangeSplitLayout uuidv4 pid l st n).2
  = handleChangeSplitLayout uuidv4 pid l st n.
Proof.
  pose proof (changeSplitLayout_settled uuidv4 pid l _
                (changeSplitLayout uuidv4 pid l (panels st) n).2
                (changeSplitLayout_result_settled uuidv4 pid l (panels st) n)) as Hfix.
  unfold handleChangeSplitLayout, setPanels. simpl. by rewrite Hfix.
Qed.

End LayoutChange.

(** ** Selection and deletion *)

Section Selection.

Variable uuidv4 : nat -> string.

Local Open Scope list_scope.

Lemma find_panel_Some pid ps p :
  find_panel pid ps = Some p → p ∈ ps ∧ Some (ComicPanel.id p) = pid.
Proof.
  unfold find_panel. intros H. apply find_some in H as [Hin Hb].
  split; [by apply list_elem_of_In|by apply bool_decide_eq_true_1 in Hb].
Qed.

Lemma find_panel_None pid ps :
  find_panel pid ps = None → Forall (fun p => Some (ComicPanel.id p) ≠ pid) ps.
Proof.
  unfold find_panel. intros H. apply Forall_forall. intros p Hp%list_elem_of_In.
  pose proof (find_none _ _ H p Hp) as Hb. by apply bool_decide_eq_false_1 in Hb.
Qed.

(** [find] skips what the predicate rejects, so it does not see the removal
    of panels with another id. *)
Lemma find_panel_filter_ne (x id : string) ps :
  x ≠ id →
  find_panel (Some x) (List.filter (fun p => bool_decide (ComicPanel.id p ≠ id)) ps)
  = find_panel (Some x) ps.
Proof.
  intros Hne. unfold find_panel. induction ps as [|p ps IH]; [done|]. simpl.
  destruct (bool_decide_reflect (ComicPanel.id p ≠ id)) as [Hp|Hp]; simpl.
  - by rewrite IH.
  - rewrite IH. rewrite bool_decide_eq_false_2; [done|].
    intros [= Heq]. apply Hp. by rewrite Heq.
Qed.

Lemma List_filter_stdpp (id : string) (ps : list ComicPanel.t) :
  List.filter (fun p => bool_decide (ComicPanel.id p ≠ id)) ps
  = filter (fun p => ComicPanel.id p ≠ id) ps.
Proof.
  induction ps as [|p ps IH]; [done|]. simpl. rewrite filter_cons.
  destruct (bool_decide_reflect (ComicPanel.id p ≠ id)) as [Hp|Hp];
    destruct (decide (ComicPanel.id p ≠ id)); try done; by rewrite IH.
Qed.

Lemma find_panel_null ps : find_panel None ps = None.
Proof. unfold find_panel. by induction ps. Qed.

(** The effect of [Toolbox] stays silent after a deletion. *)
Lemma toolboxEffect_delete st id :
  toolboxEffect st (handleDeletePanel id st st) = handleDeletePanel id st st.
Proof.
  unfold toolboxEffect, handleDeletePanel, selectedPanel.
  destruct (bool_decide_reflect (selectedPanelId st = Some id)) as [Hsel|Hsel]; simpl.
  - rewrite find_panel_null. by case_bool_decide.
  - rewrite bool_decide_eq_false_2; [done|]. intros Hne. apply Hne. clear Hne.
    destruct (selectedPanelId st) as [x|] eqn:Hx.
    + rewrite find_panel_filter_ne; [done|]. intros ->. by apply Hsel.
    + by rewrite !find_panel_null.
Qed.

(** C5. Deleting a panel — the click, the render and the effect that
    follows — keeps, in order, exactly the panels whose id is not the given
    one, each unchanged.  If the id was the selected panel id, the selected
    panel id and the active slot id are both cleared to null; otherwise both
    are left as they were. *)
Theorem delete_panel_frame (s : Sys) (id : string) :
  let st := app s in
  let st' := app (step uuidv4 s (ClickDelete id)) in
  panels st' = filter (fun p => ComicPanel.id p ≠ id) (panels st) ∧
  (selectedPanelId st = Some id →
     selectedPanelId st' = None ∧ activeSlotId st' = None) ∧
  (selectedPanelId st ≠ Some id →
     selectedPanelId st' = selectedPanelId st ∧ activeSlotId st' = activeSlotId st).
Proof.
  simpl. rewrite toolboxEffect_delete. unfold handleDeletePanel.
  rewrite <- List_filter_stdpp. split; [|split].
  - by case_bool_decide.
  - intros Hsel. by rewrite bool_decide_eq_true_2.
  - intros Hsel. by rewrite bool_decide_eq_false_2.
Qed.

(** What [handleSlotSelect] itself asks for: an empty slot asks for the
    create mode, a filled slot asks for the edit mode when the rendered mode
    is create and for no change otherwise; the panels, the roster and the
    loading state are never among its updates. *)
Lemma handleSlotSelect_mode panelId imageId cl st p img :
  find_panel (Some panelId) (panels cl) = Some p →
  find_image (Some imageId) (ComicPanel.images p) = Some img →
  mode (handleSlotSelect panelId imageId cl st) =
    if negb (truthy_string (ComicImage.url img)) then CREATE
    else if bool_decide (mode cl = CREATE) then EDIT else mode st.
Proof.
  intros Hp Himg. unfold handleSlotSelect. rewrite Hp. simpl. rewrite Himg.
  by repeat case_match.
Qed.

Lemma handleSlotSelect_frame panelId imageId cl st :
  let st' := handleSlotSelect panelId imageId cl st in
  panels st' = panels st ∧ characters st' = characters st ∧
  loadingState st' = loadingState st ∧ gridLayout st' = gridLayout st ∧
  gutterSize st' = gutterSize st ∧
  selectedPanelId st' = Some panelId ∧ activeSlotId st' = Some imageId.
Proof. simpl. unfold handleSlotSelect. by repeat case_match. Qed.

Lemma handlePanelSelect_frame id cl st :
  let st' := handlePanelSelect id cl st in
  panels st' = panels st ∧ characters st' = characters st ∧
  loadingState st' = loadingState st ∧ mode st' = mode st.
Proof. simpl. unfold handlePanelSelect. by repeat case_match. Qed.

Lemma toolboxEffect_frame before after :
  let st' := toolboxEffect before after in
  panels st' = panels after ∧ characters st' = characters after ∧
  loadingState st' = loadingState after ∧
  selectedPanelId st' = selectedPanelId after ∧
  activeSlotId st' = activeSlotId after.
Proof. simpl. unfold toolboxEffect. by repeat case_match. Qed.

(** X26. A click on a slot never touches the panel data: the panel list and
    the roster are as before and no identifier is drawn. *)
Lemma click_slot_frame (s : Sys) panelId imageId :
  let st' := app (step uuidv4 s (ClickSlot panelId imageId)) in
  panels st' = panels (app s) ∧ characters st' = characters (app s) ∧
  draws (step uuidv4 s (ClickSlot panelId imageId)) = draws s.
Proof.
  simpl.
  destruct (toolboxEffect_frame (app s)
    (handleSlotSelect panelId imageId (app s) (handlePanelSelect panelId (app s) (app s))))
    as (-> & -> & _).
  destruct (handleSlotSelect_frame panelId imageId (app s)
    (handlePanelSelect panelId (app s) (app s))) as (-> & -> & _).
  by destruct (handlePanelSelect_frame panelId (app s) (app s)) as (-> & -> & _).
Qed.

Lemma toolboxEffect_mode before after o1 o2 :
  ComicPanel.id <$> selectedPanel before = o1 →
  ComicPanel.id <$> selectedPanel after = o2 →
  mode (toolboxEffect before after) =
    if bool_decide (o1 ≠ o2) then
      match o2 with
      | Some _ => if bool_decide (mode after ≠ STORY) then EDIT else mode after
      | None => mode after
      end
    else mode after.
Proof.
  intros <- <-. unfold toolboxEffect.
  destruct (selectedPanel after); simpl; by repeat case_match.
Qed.

(** After the two handlers of a click on a slot the selected panel is the
    clicked one. *)
Lemma click_slot_selectedPanel panelId imageId st p :
  find_panel (Some panelId) (panels st) = Some p →
  selectedPanel (handleSlotSelect panelId imageId st (handlePanelSelect panelId st st))
  = Some p.
Proof.
  intros Hp. unfold selectedPanel.
  destruct (handleSlotSelect_frame panelId imageId st (handlePanelSelect panelId st st))
    as (-> & _ & _ & _ & _ & -> & _).
  by destruct (handlePanelSelect_frame panelId st st) as (-> & _).
Qed.

(** X27. A click on a slot of the selected panel: the effect of [Toolbox]
    stays silent and the click ends in the mode [handleSlotSelect] asks for,
    the create mode for an empty slot, the edit mode for a filled slot when
    the mode was the create mode, and the mode as it was otherwise. *)
Lemma click_slot_same_panel (s : Sys) panelId imageId p img :
  selectedPanelId (app s) = Some panelId →
  find_panel (Some panelId) (panels (app s)) = Some p →
  find_image (Some imageId) (ComicPanel.images p) = Some img →
  mode (app (step uuidv4 s (ClickSlot panelId imageId))) =
    if negb (truthy_string (ComicImage.url img)) then CREATE
    else if bool_decide (mode (app s) = CREATE) then EDIT else mode (app s).
Proof.
  intros Hsel Hp Himg. simpl.
  assert (Hbefore : ComicPanel.id <$> selectedPanel (app s) = Some (ComicPanel.id p))
    by (unfold selectedPanel; by rewrite Hsel, Hp).
  rewrite (toolboxEffect_mode _ _ _ (Some (ComicPanel.id p)) Hbefore)
    by (by rewrite (click_slot_selectedPanel _ _ _ _ Hp)).
  rewrite bool_decide_eq_false_2 by (intros Hne; by apply Hne).
  rewrite (handleSlotSelect_mode _ _ _ _ _ _ Hp Himg).
  by destruct (handlePanelSelect_frame panelId (app s) (app s)) as (_ & _ & _ & ->).
Qed.

(** X28. A click on an empty slot of a panel that is not the selected one
    ends in the edit mode: [handleSlotSelect] asks for the create mode, the
    selected panel changes, and the effect of [Toolbox] that runs after the
    render overrides the mode. *)
Lemma click_slot_other_panel (s : Sys) panelId imageId p img :
  ComicPanel.id <$> selectedPanel (app s) ≠ Some panelId →
  find_panel (Some panelId) (panels (app s)) = Some p →
  find_image (Some imageId) (ComicPanel.images p) = Some img →
  ComicImage.url img = "" →
  mode (handleSlotSelect panelId imageId (app s)
          (handlePanelSelect panelId (app s) (app s))) = CREATE ∧
  mode (app (step uuidv4 s (ClickSlot panelId imageId))) = EDIT.
Proof.
  intros Hother Hp Himg Hurl.
  assert (Hmode : mode (handleSlotSelect panelId imageId (app s)
                          (handlePanelSelect panelId (app s) (app s))) = CREATE)
    by (by rewrite (handleSlotSelect_mode _ _ _ _ _ _ Hp Himg), Hurl).
  split; [done|]. simpl.
  rewrite (toolboxEffect_mode _ _ _ (Some panelId) eq_refl).
  - rewrite bool_decide_eq_true_2 by done.
    by rewrite bool_decide_eq_true_2 by (by rewrite Hmode).
  - rewrite (click_slot_selectedPanel _ _ _ _ Hp). simpl.
    by apply find_panel_Some in Hp as [_ [= ->]].
Qed.

End Selection.

(** ** The prompt composer *)

Section PromptComposer.

Lemma append_cons (c : ascii) (s t : string) : String c s ++ t = String c (s ++ t).
Proof. done. Qed.

Lemma append_nil_r (s : string) : s ++ "" = s.
Proof. induction s as [|c s IH]; [done|]. by rewrite append_cons, IH. Qed.

Lemma append_assoc (a b c : string) : (a ++ b) ++ c = a ++ b ++ c.
Proof. induction a as [|x a IH]; [done|]. by rewrite !append_cons, IH. Qed.

Lemma trimEnd_app_ne (a b : string) : trimEnd b ≠ "" → trimEnd (a ++ b) ≠ "".
Proof.
  intros Hb. induction a as [|c a IH]; [done|]. rewrite append_cons. simpl.
  by destruct (trimEnd (a ++ b)).
Qed.

(** [trimEnd] only looks at what follows the last code unit that is not
    white space. *)
Lemma trimEnd_app (a b : string) : trimEnd b ≠ "" → trimEnd (a ++ b) = a ++ trimEnd b.
Proof.
  intros Hb. induction a as [|c a IH]; [done|]. rewrite !append_cons. simpl.
  pose proof (trimEnd_app_ne a b Hb) as Hne. rewrite IH in *.
  by destruct (a ++ trimEnd b).
Qed.

Lemma prefix_app (needle post : string) : String.prefix needle (needle ++ post) = true.
Proof.
  induction needle as [|c needle IH]; [by destruct post|].
  rewrite append_cons. simpl. by destruct (ascii_dec c c).
Qed.

(** A string includes each of its infixes. *)
Lemma includes_infix (pre needle post : string) :
  includes needle (pre ++ needle ++ post) = true.
Proof.
  induction pre as [|c pre IH].
  - change ("" ++ needle ++ post) with (needle ++ post).
    assert (Hunfold : ∀ hay, String.prefix needle hay = true → includes needle hay = true)
      by (intros hay Hpre; destruct hay; unfold includes; fold includes;
          by rewrite Hpre).
    apply Hunfold, prefix_app.
  - rewrite append_cons. simpl. rewrite IH. apply orb_true_r.
Qed.

(** The composed prompt in closed form: the outer [trim] removes the first
    line break with its indentation and the last one, and nothing else. *)
Lemma fullPrompt_closed (style : ComicStyle) (cs : list Character.t) (p : string) :
  fullPrompt style cs p =
    "Art Style: " ++ getStylePrompt style ++ "." ++
    nl ++ "      " ++ characterClause (getCharacterContextString cs) ++
    nl ++ "      Scene Description: " ++ p ++ "." ++
    nl ++ "      (Ensure consistent character details). high quality masterpiece.".
Proof.
  unfold fullPrompt, fullPromptTemplate, trim.
  change (trimStart (nl ++ "      Art Style: " ++ ?x)) with ("Art Style: " ++ x).
  assert (Htail : trimEnd ("      (Ensure consistent character details). high quality masterpiece."
                           ++ nl ++ "    ") ≠ "") by (by vm_compute).
  do 11 (rewrite trimEnd_app;
         [f_equal|repeat first [exact Htail|apply trimEnd_app_ne]]).
Qed.

Lemma append_ne_l (a b : string) : a ≠ "" → a ++ b ≠ "".
Proof. by destruct a. Qed.

Lemma append_ne_r (a b : string) : b ≠ "" → a ++ b ≠ "".
Proof. by destruct a. Qed.

Lemma truthy_string_ne (s : string) : s ≠ "" → truthy_string s = true.
Proof.
  intros Hs. unfold truthy_string. by destruct (String.eqb_spec s "").
Qed.

(** A roster with at least one character never yields an empty context:
    every entry holds the colon and the space. *)
Lemma getCharacterContextString_cons (c : Character.t) (cs : list Character.t) :
  getCharacterContextString (c :: cs) = join ". " (map characterEntry (c :: cs)) ∧
  getCharacterContextString (c :: cs) ≠ "".
Proof.
  split; [done|]. unfold getCharacterContextString, join. simpl.
  assert (Hentry : characterEntry c ≠ "")
    by (unfold characterEntry; by apply append_ne_r, append_ne_l).
  destruct (map characterEntry cs); [done|]. by apply append_ne_l.
Qed.

(** C6, amended. The composed generation prompt has nothing on the line of
    the roster clause when the roster is empty.  When the roster is not
    empty that line reads [Defined Characters (MUST MATCH EXACTLY): ]
    followed by one entry per character, in roster order, joined by a full
    stop and a space, and closed by a full stop; an entry is the name with
    its leading and trailing white space removed, a colon and a space, and
    the description with its leading and trailing white space removed. *)
Theorem roster_clause_in_prompt (style : ComicStyle) (cs : list Character.t) (p : string) :
  fullPrompt style cs p =
    "Art Style: " ++ getStylePrompt style ++ "." ++
    nl ++ "      " ++
    match cs with
    | [] => ""
    | _ :: _ =>
        "Defined Characters (MUST MATCH EXACTLY): " ++
        join ". " (map (fun c => trim (Character.name c) ++ ": "
                                 ++ trim (Character.description c)) cs) ++ "."
    end ++
    nl ++ "      Scene Description: " ++ p ++ "." ++
    nl ++ "      (Ensure consistent character details). high quality masterpiece.".
Proof.
  rewrite fullPrompt_closed. do 5 f_equal. destruct cs as [|c cs]; [done|].
  destruct (getCharacterContextString_cons c cs) as [Heq Hne].
  unfold characterClause. by rewrite truthy_string_ne, Heq.
Qed.

(** C7. A generate request with the style NOIR and a roster of exactly one
    character named Raven and described as black hair, trenchcoat composes,
    whatever the scene description, the character's identifier, the sketch
    and the rest of the state, a prompt that holds the NOIR entry of the
    style table and the text [Raven: black hair, trenchcoat.]; that prompt is
    the one handed to the gateway. *)
Theorem noir_raven_prompt (p cid : string) (sketch : option string) (st0 : AppState) :
  let st := setCharacters [Character.mk cid "Raven" "black hair, trenchcoat"] st0 in
  let composed := fullPrompt NOIR (characters st) p in
  getStylePrompt NOIR =
    "film noir style, high contrast black and white comic, dramatic shadows, mysterious atmosphere, frank miller style" ∧
  includes (getStylePrompt NOIR) composed = true ∧
  includes "Raven: black hair, trenchcoat." composed = true ∧
  ∃ q, begun_effects (handleGenerate_begin p NOIR sketch st st) = [Call q] ∧
       Gateway.promptOf q = composed.
Proof.
  simpl. split; [done|]. rewrite fullPrompt_closed. split; [|split].
  - apply includes_infix.
  - exact (includes_infix
             ("Art Style: " ++ getStylePrompt NOIR ++ "." ++ nl ++ "      "
              ++ "Defined Characters (MUST MATCH EXACTLY): ")
             "Raven: black hair, trenchcoat."
             (nl ++ "      Scene Description: " ++ p ++ "." ++
              nl ++ "      (Ensure consistent character details). high quality masterpiece.")).
  - rewrite <- fullPrompt_closed. unfold handleGenerate_begin. simpl.
    eexists. split; [done|]. by destruct (truthy sketch).
Qed.

End PromptComposer.

(** ** Requests to the gateway *)

Section Requests.

Variable uuidv4 : nat -> string.

Local Open Scope list_scope.

(** X29. [generateComicImage] rejects exactly when the client call rejects
    or the reply carries no image bytes, missing or empty. *)
Lemma generateComicImage_rejects (r : Gateway.Reply) :
  Gateway.generateComicImage r = None ↔
  r = None ∨ ∃ response, r = Some response ∧ truthy (Gateway.imageBytes response) = false.
Proof.
  unfold Gateway.generateComicImage. destruct r as [response|]; [|by split; [left|]].
  destruct (truthy (Gateway.imageBytes response)) eqn:E; simpl.
  - split; [done|]. intros [|(? & [= <-] & H)]; [done|]. congruence.
  - split; [|done]. intros _. right. by exists response.
Qed.

Lemma firstInlineImage_empty (ps : list Gateway.Part) :
  truthy_string (Gateway.firstInlineImage ps) = false ↔
  Forall (fun part => truthy (Gateway.inlineData_data part) = false) ps.
Proof.
  induction ps as [|part ps IH]; simpl; [by split; [constructor|]|].
  destruct (truthy (Gateway.inlineData_data part)) eqn:E.
  - split.
    + intros H. unfold truthy_string in H. by rewrite append_cons in H.
    + intros H. apply Forall_cons in H as [H _]. congruence.
  - rewrite IH. split; [by constructor|]. by intros [_ H]%Forall_cons.
Qed.

(** X30. [generateImageFromSketch] and [editComicImage] reject exactly when
    the client call rejects, the reply has no parts, or no part of it carries
    inline data that is not empty. *)
Lemma imageFromContent_rejects (r : Gateway.Reply) :
  Gateway.imageFromContent r = None ↔
  r = None ∨
  ∃ response, r = Some response ∧
    (Gateway.parts response = None ∨
     ∃ ps, Gateway.parts response = Some ps ∧
           Forall (fun part => truthy (Gateway.inlineData_data part) = false) ps).
Proof.
  unfold Gateway.imageFromContent. destruct r as [response|]; [|by split; [left|]].
  destruct (Gateway.parts response) as [ps|] eqn:Eps;
    [|split; [|done]; intros _; right; exists response; by split; [|left]].
  pose proof (firstInlineImage_empty ps) as Hps.
  destruct (truthy_string (Gateway.firstInlineImage ps)) eqn:E; simpl.
  - split; [done|]. intros [|(? & [= <-] & [H|(? & H1 & H)])]; try congruence.
    rewrite Eps in H1. injection H1 as <-. apply Hps in H. congruence.
  - split; [|done]. intros _. right. exists response. split; [done|]. right.
    exists ps. split; [done|]. by apply Hps.
Qed.

(** A rejected call: the handler only logs, alerts and clears the busy
    flag of the live state, whatever happened to that state meanwhile. *)
Lemma resume_rejected (k : Suspended) (r : Gateway.Reply) (st : AppState) (n : nat) :
  Gateway.settle (requestOf k) r = None →
  ∃ msg, resume uuidv4 k r st n = (setLoadingState idle st, n, [ConsoleError; Alert msg]).
Proof.
  intros Hfail. destruct k as [cl prompt q|cl p q]; simpl in *; rewrite Hfail.
  - by eexists.
  - by eexists.
Qed.

Lemma toolboxEffect_same before after :
  ComicPanel.id <$> selectedPanel before = ComicPanel.id <$> selectedPanel after →
  toolboxEffect before after = after.
Proof. intros H. unfold toolboxEffect. by rewrite bool_decide_eq_false_2 by (by intros []). Qed.

(** Up to its [await] a request handler sets the busy flag at most. *)
Lemma handleGenerate_begin_state prompt style sketch cl st :
  ∃ v, begun_state (handleGenerate_begin prompt style sketch cl st) = setLoadingState v st.
Proof. by eexists. Qed.

Lemma handleEdit_begin_state editPrompt cl st :
  let b := handleEdit_begin editPrompt cl st in
  (begun_suspended b = None ∧ begun_state b = st) ∨
  (∃ v k, begun_suspended b = Some k ∧ begun_state b = setLoadingState v st).
Proof.
  simpl. unfold handleEdit_begin. repeat case_match; simpl; eauto.
Qed.

Lemma handleSubmit_state prompt style sketch cl st :
  let b := handleSubmit prompt style sketch cl st in
  begun_state b = st ∨ ∃ v, begun_state b = setLoadingState v st.
Proof.
  simpl. unfold handleSubmit. repeat case_match; eauto.
  destruct (handleEdit_begin_state prompt cl st) as [[_ ->]|(v & k & _ & ->)]; eauto.
Qed.

Lemma step_submit_app (s : Sys) prompt style sketch :
  app (step uuidv4 s (Submit prompt style sketch)) = app s ∨
  ∃ v, app (step uuidv4 s (Submit prompt style sketch)) = setLoadingState v (app s).
Proof.
  unfold step, dispatch. destruct (submitEnabled (app s)); simpl.
  - destruct (handleSubmit_state prompt style sketch (app s) (app s)) as [->|[v ->]].
    + left. by apply toolboxEffect_same.
    + right. exists v. by apply toolboxEffect_same.
  - left. by apply toolboxEffect_same.
Qed.

Lemma step_submit_draws (s : Sys) prompt style sketch :
  draws (step uuidv4 s (Submit prompt style sketch)) = draws s.
Proof. unfold step, dispatch. by destruct (submitEnabled (app s)). Qed.

(** Settling a suspended request with a rejection. *)
Lemma step_settle_rejected (s : Sys) (k : Suspended) (r : Gateway.Reply) :
  suspended s = Some k →
  Gateway.settle (requestOf k) r = None →
  app (step uuidv4 s (Settle r)) = setLoadingState idle (app s) ∧
  draws (step uuidv4 s (Settle r)) = draws s ∧
  suspended (step uuidv4 s (Settle r)) = None.
Proof.
  intros Hk Hfail.
  destruct (resume_rejected k r (app s) (draws s) Hfail) as [msg Hres].
  unfold step, dispatch. rewrite Hk, Hres. simpl.
  by rewrite toolboxEffect_same.
Qed.

(** C9. When the gateway call of a submitted generate or edit request
    fails — the client call rejects or the reply carries no usable payload,
    so that the awaited promise rejects — the submission itself has changed
    nothing but the busy flag, and once the failure is handled the state is
    the state before the request with the busy flag cleared: the panel list,
    the selection pointers and the roster are exactly as before, no
    identifier has been drawn and no request is left in flight. *)
Theorem failed_request_no_mutation (s : Sys) prompt style sketch (r : Gateway.Reply)
    (k : Suspended) :
  suspended (step uuidv4 s (Submit prompt style sketch)) = Some k →
  Gateway.settle (requestOf k) r = None →
  let s1 := step uuidv4 s (Submit prompt style sketch) in
  let s2 := step uuidv4 s1 (Settle r) in
  (panels (app s1) = panels (app s) ∧
   selectedPanelId (app s1) = selectedPanelId (app s) ∧
   activeSlotId (app s1) = activeSlotId (app s) ∧
   characters (app s1) = characters (app s)) ∧
  app s2 = setLoadingState idle (app s) ∧
  isLoading (loadingState (app s2)) = false ∧
  draws s2 = draws s ∧
  suspended s2 = None.
Proof.
  intros Hk Hfail. cbv zeta.
  destruct (step_settle_rejected _ k r Hk Hfail) as (-> & -> & ->).
  rewrite step_submit_draws.
  destruct (step_submit_app s prompt style sketch) as [->|[v ->]]; by destruct (app s).
Qed.

(** C8. An edit request is rejected before any gateway call when no panel
    is selected or no slot is active (silently), and when the active slot is
    missing from the selected panel or holds no image, that is an empty url
    (with an alert): in each case the state is left as it is, busy flag
    included, nothing is suspended on the gateway and no call is made. *)
Theorem edit_rejected_without_image (editPrompt : string) (st : AppState) :
  let b := handleEdit_begin editPrompt st st in
  ((selectedPanel st = None ∨ truthy (activeSlotId st) = false) →
     b = {| begun_state := st; begun_effects := []; begun_suspended := None |}) ∧
  (∀ p, selectedPanel st = Some p →
        truthy (activeSlotId st) = true →
        (∀ img, find_image (activeSlotId st) (ComicPanel.images p) = Some img →
                ComicImage.url img = "") →
     b = {| begun_state := st;
            begun_effects := [Alert "Please select a slot with an image to edit."];
            begun_suspended := None |}).
Proof.
  simpl. unfold handleEdit_begin. split.
  - intros [->| ->]; [done|]. by destruct (selectedPanel st).
  - intros p -> -> Himg. simpl.
    destruct (find_image (activeSlotId st) (ComicPanel.images p)) as [img|]; [|done].
    by rewrite (Himg img eq_refl).
Qed.

(** Conversely an edit request on a slot that holds an image does reach the
    gateway, with the url of that image. *)
Lemma edit_accepted (editPrompt : string) (st : AppState) p img :
  selectedPanel st = Some p →
  truthy (activeSlotId st) = true →
  find_image (activeSlotId st) (ComicPanel.images p) = Some img →
  truthy_string (ComicImage.url img) = true →
  handleEdit_begin editPrompt st st =
    let q := Gateway.EditComicImage (ComicImage.url img)
               (fullEditPrompt (characters st) editPrompt) in
    {| begun_state :=
         setLoadingState {| isLoading := true; message := "Editing panel..." |} st;
       begun_effects := [Call q];
       begun_suspended := Some (AwaitEdit st p q) |}.
Proof. intros Hp Ha Himg Hurl. unfold handleEdit_begin. by rewrite Hp, Ha, Himg, Hurl. Qed.

End Requests.

(** ** The slot-count invariant *)

Section StoreInvariant.

Variable uuidv4 : nat -> string.
Hypothesis uuidv4_inj : Inj (=) (=) uuidv4.

Local Open Scope list_scope.
Local Open Scope nat_scope.

Lemma storeOk_weaken ps n m : n ≤ m → storeOk uuidv4 ps n → storeOk uuidv4 ps m.
Proof.
  intros Hnm (Hslots & Hdup & Hdrawn). repeat split; [done..|].
  eapply Forall_impl; [exact Hdrawn|]. intros p (j & Hj & Hid). exists j. split; [lia|done].
Qed.

(** An update of single panels that keeps their ids. *)
Lemma storeOk_map (f : ComicPanel.t → ComicPanel.t) ps n :
  (∀ p, ComicPanel.id (f p) = ComicPanel.id p) →
  (∀ p, p ∈ ps → slotsMatchLayout p → slotsMatchLayout (f p)) →
  storeOk uuidv4 ps n → storeOk uuidv4 (map f ps) n.
Proof.
  intros Hid Hslot (Hslots & Hdup & Hdrawn).
  assert (Hids : ComicPanel.id <$> map f ps = ComicPanel.id <$> ps).
  { clear -Hid. induction ps as [|p ps IH]; [done|].
    change (map f (p :: ps)) with (f p :: map f ps).
    by rewrite !fmap_cons, Hid, IH. }
  repeat split.
  - apply Forall_forall. intros q (p & -> & Hp)%list_elem_of_fmap.
    apply Hslot; [done|]. rewrite Forall_forall in Hslots. by apply Hslots.
  - by rewrite Hids.
  - apply Forall_forall. intros q (p & -> & Hp)%list_elem_of_fmap. rewrite Hid.
    rewrite Forall_forall in Hdrawn. by apply Hdrawn.
Qed.

Lemma suspendedOk_map (f : ComicPanel.t → ComicPanel.t) o ps :
  (∀ p, ComicPanel.id (f p) = ComicPanel.id p) →
  (∀ p, ComicPanel.splitLayout (f p) = ComicPanel.splitLayout p) →
  suspendedOk o ps → suspendedOk o (map f ps).
Proof.
  intros Hid Hlayout Hok k pc Hk Hpc. specialize (Hok k pc Hk Hpc).
  apply Forall_forall. intros q (p & -> & Hp)%list_elem_of_fmap.
  rewrite Hid, Hlayout. rewrite Forall_forall in Hok. by apply Hok.
Qed.

Lemma storeOk_filter (g : ComicPanel.t → bool) ps n :
  storeOk uuidv4 ps n → storeOk uuidv4 (List.filter g ps) n.
Proof.
  intros (Hslots & Hdup & Hdrawn).
  assert (Hsub : ∀ p, p ∈ List.filter g ps → p ∈ ps)
    by (intros p [Hp _]%list_elem_of_In%filter_In; by apply list_elem_of_In).
  repeat split.
  - apply Forall_forall. intros p Hp. rewrite Forall_forall in Hslots. auto.
  - clear -Hdup. induction ps as [|p ps IH]; [done|]. simpl in *.
    apply NoDup_cons in Hdup as [Hp Hdup]. destruct (g p); simpl; [|by apply IH].
    apply NoDup_cons. split; [|by apply IH].
    intros (q & Hq & Hin)%list_elem_of_fmap. apply Hp. apply list_elem_of_fmap.
    exists q. split; [done|].
    apply list_elem_of_In, filter_In in Hin as [Hin _]. by apply list_elem_of_In.
  - apply Forall_forall. intros p Hp. rewrite Forall_forall in Hdrawn. auto.
Qed.

Lemma suspendedOk_filter (g : ComicPanel.t → bool) o ps :
  suspendedOk o ps → suspendedOk o (List.filter g ps).
Proof.
  intros Hok k pc Hk Hpc. specialize (Hok k pc Hk Hpc).
  apply Forall_forall. intros p [Hp _]%list_elem_of_In%filter_In.
  rewrite Forall_forall in Hok. apply Hok. by apply list_elem_of_In.
Qed.

Lemma suspendedOk_None ps : suspendedOk None ps.
Proof. by intros k pc. Qed.

(** A layout change keeps the ids and re-establishes the slot count of the
    panels it rebuilds. *)
Lemma changeSplitLayout_ids pid l ps n :
  ComicPanel.id <$> (changeSplitLayout uuidv4 pid l ps n).1 = ComicPanel.id <$> ps.
Proof.
  revert n. induction ps as [|p ps IH]; intros n; [done|].
  rewrite changeSplitLayout_cons. case_bool_decide; simpl; rewrite IH; [done|].
  by rewrite reconcile_id.
Qed.

Lemma changeSplitLayout_slots pid l ps n :
  Forall slotsMatchLayout ps →
  Forall slotsMatchLayout (changeSplitLayout uuidv4 pid l ps n).1.
Proof.
  intros H. revert n. induction H as [|p ps Hp _ IH]; intros n; [by constructor|].
  rewrite changeSplitLayout_cons. case_bool_decide; simpl.
  - constructor; [done|apply IH].
  - constructor; [|apply IH]. unfold slotsMatchLayout.
    by rewrite reconcile_length, reconcile_layout.
Qed.

Lemma storeOk_changeSplitLayout pid l ps n :
  storeOk uuidv4 ps n →
  storeOk uuidv4 (changeSplitLayout uuidv4 pid l ps n).1
                 (changeSplitLayout uuidv4 pid l ps n).2.
Proof.
  intros (Hslots & Hdup & Hdrawn). repeat split.
  - by apply changeSplitLayout_slots.
  - by rewrite changeSplitLayout_ids.
  - assert (Hids : Forall (drawnBelow uuidv4 n)
                     (ComicPanel.id <$> (changeSplitLayout uuidv4 pid l ps n).1))
      by (rewrite changeSplitLayout_ids; by rewrite Forall_fmap).
    rewrite Forall_fmap in Hids. eapply Forall_impl; [exact Hids|].
    intros p (j & Hj & Hid). exists j. split; [|done].
    pose proof (changeSplitLayout_draws uuidv4 pid l ps n). simpl. lia.
Qed.

(** The panel a generate request appends when nothing is selected. *)
Lemma storeOk_append ps n imageUrl prompt :
  storeOk uuidv4 ps n →
  storeOk uuidv4
    (ps ++ [ComicPanel.mk (uuidv4 n) [ComicImage.mk (uuidv4 (S n)) imageUrl prompt]
              SINGLE "" Ratio_1_1 1 NONE])
    (S (S n)).
Proof.
  intros (Hslots & Hdup & Hdrawn). repeat split.
  - apply Forall_app. split; [done|]. by repeat constructor.
  - rewrite fmap_app. apply NoDup_app. split; [done|]. split; [|by apply NoDup_singleton].
    intros x (p & -> & Hp)%list_elem_of_fmap Hx. simpl in Hx.
    apply list_elem_of_singleton in Hx.
    rewrite Forall_forall in Hdrawn. destruct (Hdrawn p Hp) as (j & Hj & Hid).
    rewrite Hid in Hx. apply uuidv4_inj in Hx. lia.
  - apply Forall_app. split.
    + eapply Forall_impl; [exact Hdrawn|]. intros p (j & Hj & Hid). exists j. split; [lia|done].
    + repeat constructor. exists n. split; [lia|done].
Qed.

Lemma NoDup_id_eq (ps : list ComicPanel.t) p q :
  NoDup (ComicPanel.id <$> ps) → p ∈ ps → q ∈ ps →
  ComicPanel.id p = ComicPanel.id q → p = q.
Proof.
  induction ps as [|x ps IH]; intros Hdup Hp Hq Hid; [by apply elem_of_nil in Hp|].
  rewrite fmap_cons in Hdup. apply NoDup_cons in Hdup as [Hx Hdup].
  apply elem_of_cons in Hp as [->|Hp]; apply elem_of_cons in Hq as [->|Hq]; [done|..].
  - destruct Hx. apply list_elem_of_fmap. by exists q.
  - destruct Hx. apply list_elem_of_fmap. by exists p.
  - by apply IH.
Qed.

(** The invariant looks at the panels, the draw count and the suspended
    request only. *)
Lemma sysOk_ext (s s' : Sys) :
  panels (app s) = panels (app s') → draws s = draws s' → suspended s = suspended s' →
  sysOk uuidv4 s' → sysOk uuidv4 s.
Proof. unfold sysOk. by intros -> -> ->. Qed.

Lemma sysOk_step_dispatch (s : Sys) (e : Event) :
  sysOk uuidv4 (dispatch uuidv4 s e) → sysOk uuidv4 (step uuidv4 s e).
Proof.
  apply sysOk_ext; [|done..]. unfold step. simpl.
  by destruct (toolboxEffect_frame (app s) (app (dispatch uuidv4 s e))) as (-> & _).
Qed.

(** A handler suspended by a submission closed over the state it was
    submitted in. *)
Lemma handleSubmit_suspended prompt style sketch st k :
  begun_suspended (handleSubmit prompt style sketch st st) = Some k →
  ∀ pc, closurePanel k = Some pc → ∃ sel, find_panel sel (panels st) = Some pc.
Proof.
  unfold handleSubmit, handleGenerate_begin, handleEdit_begin.
  repeat case_match; simpl; intros [= <-] pc; simpl; try done.
  all: try (intros [= <-]; unfold selectedPanel in *; by eauto).
  all: destruct (truthy (selectedPanelId st) && truthy (activeSlotId st)); [eauto|done].
Qed.

Lemma suspendedOk_fresh (ps : list ComicPanel.t) n k :
  storeOk uuidv4 ps n →
  (∀ pc, closurePanel k = Some pc → ∃ sel, find_panel sel ps = Some pc) →
  suspendedOk (Some k) ps.
Proof.
  intros (Hslots & Hdup & _) Hk k' pc [= <-] Hpc.
  destruct (Hk pc Hpc) as [sel [Hin _]%find_panel_Some].
  apply Forall_forall. intros p Hp Hid.
  rewrite (NoDup_id_eq ps p pc Hdup Hp Hin Hid).
  rewrite Forall_forall in Hslots. by apply Hslots.
Qed.

(** Writing back a slot list of the right length. *)
Lemma storeOk_write_back (cond : ComicPanel.t → bool) (imgs : list ComicImage.t) ps n :
  (∀ p, p ∈ ps → cond p = true → length imgs = targetCount (ComicPanel.splitLayout p)) →
  storeOk uuidv4 ps n →
  storeOk uuidv4
    (map (fun p => if cond p then ComicPanel.with_images imgs p else p) ps) n.
Proof.
  intros Hlen. apply storeOk_map.
  - intros p. by destruct (cond p).
  - intros p Hp Hslot. destruct (cond p) eqn:E; [|done].
    unfold slotsMatchLayout. simpl. by apply Hlen.
Qed.

Lemma sysOk_resume (s : Sys) (k : Suspended) (r : Gateway.Reply) :
  suspended s = Some k →
  sysOk uuidv4 s →
  storeOk uuidv4 (panels (resume uuidv4 k r (app s) (draws s)).1.1)
                 (resume uuidv4 k r (app s) (draws s)).1.2.
Proof.
  intros Hk [Hstore Hsusp].
  destruct k as [cl prompt q|cl sp q]; simpl.
  - unfold handleGenerate_resume.
    destruct (Gateway.settle q r) as [imageUrl|]; [|done].
    destruct (truthy (selectedPanelId cl) && truthy (activeSlotId cl)) eqn:Esel;
      [|by apply storeOk_append].
    destruct (find_panel (selectedPanelId cl) (panels cl)) as [panel|] eqn:Epanel; [|done].
    simpl. apply storeOk_write_back; [|done].
    intros p Hp Hcond%bool_decide_eq_true_1. rewrite length_map.
    assert (Hpc : closurePanel (AwaitGenerate cl prompt q) = Some panel)
      by (simpl; by rewrite Esel).
    specialize (Hsusp _ _ Hk Hpc). rewrite Forall_forall in Hsusp. apply Hsusp; [done|].
    apply find_panel_Some in Epanel as [_ Hid]. rewrite <- Hcond in Hid. by injection Hid.
  - unfold handleEdit_resume.
    destruct (Gateway.settle q r) as [newImageUrl|]; [|done].
    simpl. apply storeOk_write_back; [|done].
    intros p Hp Hcond%bool_decide_eq_true_1. rewrite length_map.
    specialize (Hsusp _ sp Hk eq_refl). rewrite Forall_forall in Hsusp. by apply Hsusp.
Qed.

(** Every event keeps the invariant, provided a layout change does not
    fall between the submission of a request and its settlement. *)
Lemma sysOk_step (s : Sys) (e : Event) :
  (∀ l, e = ClickLayout l → suspended s = None) →
  sysOk uuidv4 s → sysOk uuidv4 (step uuidv4 s e).
Proof.
  intros Hquiet Hok. apply sysOk_step_dispatch. pose proof Hok as [Hstore Hsusp].
  destruct e as [prompt style sketch|r|id|pid iid|id|id caption|id type|span|l|m|cs];
    unfold dispatch.
  - destruct (submitEnabled (app s)); [|done].
    assert (Hps : panels (begun_state (handleSubmit prompt style sketch (app s) (app s)))
                  = panels (app s))
      by (by destruct (handleSubmit_state prompt style sketch (app s) (app s))
               as [->|[v ->]]).
    split; simpl; rewrite Hps; [done|].
    destruct (begun_suspended (handleSubmit prompt style sketch (app s) (app s)))
      as [k|] eqn:Ek; [|apply suspendedOk_None].
    eapply suspendedOk_fresh; [done|]. by eapply handleSubmit_suspended.
  - destruct (suspended s) as [k|] eqn:Ek; [|done].
    pose proof (sysOk_resume s k r Ek Hok) as Hres.
    destruct (resume uuidv4 k r (app s) (draws s)) as [[st n] effects].
    split; [done|apply suspendedOk_None].
  - apply (sysOk_ext _ s); [|done..]. simpl.
    by destruct (handlePanelSelect_frame id (app s) (app s)) as (-> & _).
  - apply (sysOk_ext _ s); [|done..]. simpl.
    destruct (handleSlotSelect_frame pid iid (app s)
                (handlePanelSelect pid (app s) (app s))) as (-> & _).
    by destruct (handlePanelSelect_frame pid (app s) (app s)) as (-> & _).
  - split; simpl.
    + unfold handleDeletePanel. case_bool_decide; simpl; by apply storeOk_filter.
    + unfold handleDeletePanel. case_bool_decide; simpl; by apply suspendedOk_filter.
  - split; simpl.
    + apply storeOk_map; [| |done]; intros p; [|intros _]; by case_bool_decide.
    + apply suspendedOk_map; [..|done]; intros p; by case_bool_decide.
  - split; simpl.
    + apply storeOk_map; [| |done]; intros p; [|intros _]; by case_bool_decide.
    + apply suspendedOk_map; [..|done]; intros p; by case_bool_decide.
  - destruct (mode (app s)); [done| |done].
    destruct (selectedPanel (app s)) as [p|]; [|done]. split; simpl.
    + apply storeOk_map; [| |done]; intros p'; [|intros _]; by case_bool_decide.
    + apply suspendedOk_map; [..|done]; intros p'; by case_bool_decide.
  - destruct (mode (app s)); [done| |done].
    destruct (selectedPanel (app s)) as [p|]; [|done]. split; simpl.
    + by apply storeOk_changeSplitLayout.
    + rewrite (Hquiet l eq_refl). apply suspendedOk_None.
  - done.
  - done.
Qed.

Lemma sysOk_run (es : list Event) (s : Sys) :
  serialized uuidv4 s es → sysOk uuidv4 s → sysOk uuidv4 (run uuidv4 s es).
Proof.
  revert s. induction es as [|e es IH]; intros s Hser Hok; [done|].
  destruct Hser as [Hquiet Hser]. apply IH; [done|]. by apply sysOk_step.
Qed.

(** X11. The slot-count invariant on every run from the empty store in
    which no layout change falls between the submission of a request and its
    settlement, for a supply that never repeats an identifier: every panel
    has as many slots as its layout tag dictates. *)
Theorem slots_match_layout_serialized (es : list Event) :
  serialized uuidv4 initialSys es →
  Forall slotsMatchLayout (panels (app (run uuidv4 initialSys es))).
Proof.
  intros Hser. apply (sysOk_run es initialSys Hser).
  split; [|apply suspendedOk_None]. repeat split; by constructor.
Qed.

End StoreInvariant.

(** ** The model on concrete inputs *)

Example targetCount_examples :
  map targetCount [SINGLE; DOUBLE_H; BIG_TOP; QUAD] = [1; 2; 3; 4].
Proof. reflexivity. Qed.

Example trim_examples :
  trim "  Raven " = "Raven" ∧ trim (nl ++ " a b " ++ nl) = "a b" ∧ trim "   " = "".
Proof. by vm_compute. Qed.

Example join_examples :
  join ". " [] = "" ∧ join ". " ["a"] = "a" ∧ join ". " ["a"; "b"; "c"] = "a. b. c".
Proof. by vm_compute. Qed.

Example includes_examples :
  includes "ven" "Raven" = true ∧ includes "" "" = true ∧ includes "vex" "Raven" = false.
Proof. by vm_compute. Qed.

Example onePanel_panels :
  panels (app onePanel)
  = [ComicPanel.mk "u0" [ComicImage.mk "u1" "data:image/jpeg;base64,AAAA" "a cat"]
       SINGLE "" Ratio_1_1 1 NONE]
  ∧ mode (app onePanel) = CREATE ∧ selectedPanelId (app onePanel) = None
  ∧ draws onePanel = 2.
Proof. by vm_compute. Qed.

Example single_to_quad :
  ComicPanel.images <$> panels (handleChangeSplitLayout uuidDemo "u0" QUAD (app onePanel) 2).1
  = [[ComicImage.mk "u1" "data:image/jpeg;base64,AAAA" "a cat";
      ComicImage.mk "u2" "" ""; ComicImage.mk "u3" "" ""; ComicImage.mk "u4" "" ""]].
Proof. by vm_compute. Qed.

Example quad_to_single :
  let quad := (handleChangeSplitLayout uuidDemo "u0" QUAD (app onePanel) 2).1 in
  ComicPanel.images <$> panels (handleChangeSplitLayout uuidDemo "u0" SINGLE quad 5).1
  = [[ComicImage.mk "u1" "data:image/jpeg;base64,AAAA" "a cat"]].
Proof. by vm_compute. Qed.

Lemma uuidDemo_inj : Inj (=) (=) uuidDemo.
Proof.
  intros a b H. unfold uuidDemo in H.
  apply (inj (String.append "u")) in H. by apply (inj pretty) in H.
Qed.

(** ** Instances and counterexamples *)

Lemma layout_change_slot_count_witness :
  ∃ p', panels (handleChangeSplitLayout uuidDemo "u0" QUAD (app onePanel) 2).1 !! 0 = Some p' ∧
        ComicPanel.id p' = "u0" ∧ ComicPanel.splitLayout p' = QUAD ∧
        length (ComicPanel.images p') = 4.
Proof.
  eapply (layout_change_slot_count uuidDemo "u0" QUAD (app onePanel) 2 0); reflexivity.
Defined.

Lemma layout_change_slots_witness :
  ∃ p', panels (handleChangeSplitLayout uuidDemo "u0" QUAD (app onePanel) 2).1 !! 0 = Some p' ∧
        ComicPanel.images p'
        = [ComicImage.mk "u1" "data:image/jpeg;base64,AAAA" "a cat";
           ComicImage.mk "u2" "" ""; ComicImage.mk "u3" "" ""; ComicImage.mk "u4" "" ""].
Proof.
  destruct (layout_change_slots uuidDemo "u0" QUAD (app onePanel) 2 0
              (ComicPanel.mk "u0" [ComicImage.mk "u1" "data:image/jpeg;base64,AAAA" "a cat"]
                 SINGLE "" Ratio_1_1 1 NONE) eq_refl eq_refl)
    as (p' & Hp' & _).
  exists p'. split; [exact Hp'|].
  vm_compute in Hp'. injection Hp' as <-. reflexivity.
Defined.

Lemma failed_request_no_mutation_witness :
  app (run uuidDemo initialSys [Submit "a cat" NOIR None; Settle None])
  = setLoadingState idle initialState.
Proof.
  eapply (failed_request_no_mutation uuidDemo initialSys "a cat" NOIR None None);
    reflexivity.
Defined.

(** C6 as worded fails on a name that ends in white space: the entry built
    from the raw name and the raw description is nowhere in the prompt,
    because the composer trims both. *)
Lemma roster_clause_raw_fields_counterexample :
  paddedRoster ≠ [] ∧
  rosterClause_spec paddedRoster = "Raven : black hair, trenchcoat" ∧
  includes (rosterClause_spec paddedRoster) (fullPrompt NOIR paddedRoster "a rooftop") = false ∧
  includes "Raven: black hair, trenchcoat" (fullPrompt NOIR paddedRoster "a rooftop") = true.
Proof. by vm_compute. Qed.

(** C3 fails on the code. A layout change made while a generate request
    for the selected slot is in flight is overwritten by the slot list the
    handler reads from the render it closed over: before the last event the
    panel has the QUAD tag and four slots, after it the QUAD tag and a single
    slot, so the slot count is not the one its layout tag dictates. *)
Theorem layout_change_during_fill_breaks_slot_count :
  let before := run uuidDemo initialSys (removelast layoutChangeDuringFill) in
  let after := run uuidDemo initialSys layoutChangeDuringFill in
  Forall slotsMatchLayout (panels (app before)) ∧
  (length ∘ ComicPanel.images) <$> panels (app before) = [4] ∧
  panels (app after)
  = [ComicPanel.mk "u0" [ComicImage.mk "u1" "data:image/jpeg;base64,CCCC" "a dog"]
       QUAD "" Ratio_1_1 1 NONE] ∧
  targetCount QUAD = 4 ∧
  ¬ Forall slotsMatchLayout (panels (app after)).
Proof.
  cbv zeta. split; [|split; [by vm_compute|split; [by vm_compute|split; [done|]]]].
  - vm_compute. by repeat constructor.
  - intros H. vm_compute in H. apply Forall_cons in H as [H _]. discriminate H.
Qed.

(** The edit handler writes back a stale slot list in the same way. *)
Example layout_change_during_edit_breaks_slot_count :
  panels (app (run uuidDemo initialSys layoutChangeDuringEdit))
  = [ComicPanel.mk "u0" [ComicImage.mk "u1" "data:image/png;base64,BBBB" "a cat"]
       QUAD "" Ratio_1_1 1 NONE].
Proof. by vm_compute. Qed.

(** C4 fails on the code. The slot [u4] of the panel [u0] is empty and the
    panel [u2] is the selected one; [handleSlotSelect] asks for the create
    mode, and the click ends in the edit mode, set by the effect of [Toolbox]
    that runs because the selected panel changed.  The same click repeated,
    now inside the selected panel, ends in the create mode. *)
Theorem empty_slot_of_other_panel_ends_in_edit :
  let s := secondPanelSelected in
  selectedPanelId (app s) = Some "u2" ∧
  (find_panel (Some "u0") (panels (app s))
     ≫= fun p => find_image (Some "u4") (ComicPanel.images p))
  = Some (ComicImage.mk "u4" "" "") ∧
  mode (handleSlotSelect "u0" "u4" (app s) (handlePanelSelect "u0" (app s) (app s))) = CREATE ∧
  mode (app (step uuidDemo s (ClickSlot "u0" "u4"))) = EDIT ∧
  mode (app (run uuidDemo s [ClickSlot "u0" "u4"; ClickSlot "u0" "u4"])) = CREATE.
Proof. by vm_compute. Qed.

(** The invariant theorem applies to the run that builds the two panels. *)
Lemma slots_match_layout_serialized_witness :
  Forall slotsMatchLayout (panels (app secondPanelSelected)).
Proof.
  apply (slots_match_layout_serialized uuidDemo uuidDemo_inj).
  vm_compute. repeat split; by intros l [=].
Defined.

(** * Further properties of the code *)

(** ** Layout changes: frame and composition *)

Section LayoutComposition.

Variable uuidv4 : nat -> string.

Local Open Scope list_scope.
Local Open Scope nat_scope.

(** The slot list after a reconciliation, in one formula for the three
    cases. *)
Lemma reconcile_images (l : PanelSplitLayout) (p : ComicPanel.t) (k : nat) :
  ComicPanel.images (reconcile uuidv4 l p k).1
  = take (targetCount l) (ComicPanel.images p)
    ++ (emptySlot uuidv4 <$> seq k (targetCount l - length (ComicPanel.images p))).
Proof.
  destruct (Nat.lt_total (length (ComicPanel.images p)) (targetCount l)) as [H|[H|H]].
  - rewrite reconcile_grow by done. simpl. by rewrite take_ge by lia.
  - rewrite reconcile_same by done. simpl.
    rewrite take_ge by lia. replace (targetCount l - _) with 0 by lia. by rewrite app_nil_r.
  - rewrite reconcile_shrink by done. simpl.
    replace (targetCount l - _) with 0 by lia. by rewrite app_nil_r.
Qed.

Lemma reconcile_fields (l : PanelSplitLayout) (p : ComicPanel.t) (k : nat) :
  let p' := (reconcile uuidv4 l p k).1 in
  ComicPanel.caption p' = ComicPanel.caption p ∧
  ComicPanel.aspectRatio p' = ComicPanel.aspectRatio p ∧
  ComicPanel.colSpan p' = ComicPanel.colSpan p ∧
  ComicPanel.overlayType p' = ComicPanel.overlayType p.
Proof. simpl. unfold reconcile. by repeat case_match. Qed.

(** X1. A layout change keeps the number and the order of the panels; every
    panel keeps its id, caption, aspect ratio, column span and overlay; a
    panel with another id is left exactly as it is; the selection (also when
    the active slot is among the discarded ones), the mode, the roster and
    the busy flag are not touched. *)
Theorem layout_change_frame pid l (st : AppState) n :
  let st' := (handleChangeSplitLayout uuidv4 pid l st n).1 in
  length (panels st') = length (panels st) ∧
  (∀ i p, panels st !! i = Some p →
     ∃ p', panels st' !! i = Some p' ∧
       ComicPanel.id p' = ComicPanel.id p ∧
       ComicPanel.caption p' = ComicPanel.caption p ∧
       ComicPanel.aspectRatio p' = ComicPanel.aspectRatio p ∧
       ComicPanel.colSpan p' = ComicPanel.colSpan p ∧
       ComicPanel.overlayType p' = ComicPanel.overlayType p ∧
       (ComicPanel.id p ≠ pid → p' = p)) ∧
  selectedPanelId st' = selectedPanelId st ∧
  activeSlotId st' = activeSlotId st ∧
  mode st' = mode st ∧
  characters st' = characters st ∧
  loadingState st' = loadingState st.
Proof.
  cbv zeta. rewrite handleChangeSplitLayout_panels. split; [|split; [|done]].
  - apply changeSplitLayout_length.
  - intros i p Hi.
    destruct (changeSplitLayout_lookup uuidv4 pid l _ n i p Hi) as (k & _ & ->).
    eexists. split; [done|]. case_bool_decide as Hid; [done|].
    rewrite reconcile_id. destruct (reconcile_fields l p k) as (-> & -> & -> & ->).
    repeat split. intros Hne. by destruct Hid.
Qed.

(** Two layout changes in a row on the panel at a position. *)
Lemma layout_change_twice pid l1 l2 (st : AppState) n i p :
  panels st !! i = Some p →
  ComicPanel.id p = pid →
  ∃ k1 k2,
    panels (handleChangeSplitLayout uuidv4 pid l2
              (handleChangeSplitLayout uuidv4 pid l1 st n).1
              (handleChangeSplitLayout uuidv4 pid l1 st n).2).1 !! i
    = Some (reconcile uuidv4 l2 (reconcile uuidv4 l1 p k1).1 k2).1.
Proof.
  intros Hi Hid.
  destruct (changeSplitLayout_lookup uuidv4 pid l1 _ n i p Hi) as (k1 & _ & H1).
  rewrite bool_decide_eq_false_2 in H1 by (intros Hne; by apply Hne).
  rewrite <- handleChangeSplitLayout_panels in H1.
  destruct (changeSplitLayout_lookup uuidv4 pid l2 _
              (handleChangeSplitLayout uuidv4 pid l1 st n).2 i _ H1) as (k2 & _ & H2).
  rewrite bool_decide_eq_false_2 in H2
    by (intros Hne; apply Hne; by rewrite reconcile_id).
  exists k1, k2. by rewrite handleChangeSplitLayout_panels.
Qed.

(** X2. Growing a panel and then shrinking it back loses nothing: when the
    first layout needs at least the slots the panel holds and the second at
    most as many, the panel ends with the first slots of the original list,
    as many as the second layout needs; with a second layout of exactly the
    original count the original slot list is back, identifiers included. *)
Theorem layout_grow_then_shrink pid l1 l2 (st : AppState) n i p :
  panels st !! i = Some p →
  ComicPanel.id p = pid →
  length (ComicPanel.images p) ≤ targetCount l1 →
  targetCount l2 ≤ length (ComicPanel.images p) →
  ∃ p', panels (handleChangeSplitLayout uuidv4 pid l2
                  (handleChangeSplitLayout uuidv4 pid l1 st n).1
                  (handleChangeSplitLayout uuidv4 pid l1 st n).2).1 !! i = Some p' ∧
        ComicPanel.splitLayout p' = l2 ∧
        ComicPanel.images p' = take (targetCount l2) (ComicPanel.images p) ∧
        (targetCount l2 = length (ComicPanel.images p) →
         ComicPanel.images p' = ComicPanel.images p).
Proof.
  intros Hi Hid H1 H2.
  destruct (layout_change_twice pid l1 l2 st n i p Hi Hid) as (k1 & k2 & ->).
  eexists. split; [done|]. rewrite reconcile_layout. split; [done|].
  assert (Himgs : ComicPanel.images (reconcile uuidv4 l2 (reconcile uuidv4 l1 p k1).1 k2).1
                  = take (targetCount l2) (ComicPanel.images p)).
  { rewrite reconcile_images, reconcile_length, reconcile_images.
    replace (targetCount l2 - targetCount l1) with 0 by lia. simpl. rewrite app_nil_r.
    rewrite (take_ge (ComicPanel.images p)) by lia.
    by rewrite take_app_le by lia. }
  split; [done|]. intros Heq. rewrite Himgs. by rewrite take_ge by lia.
Qed.

(** X3. Shrinking a panel and then growing it again does not bring the
    dropped slots back: when the first layout needs at most the slots the
    panel holds and the second at least as many as the first, the panel ends
    with the first slots of the original list, as many as the first layout
    needs, followed by empty slots with newly drawn identifiers. *)
Theorem layout_shrink_then_grow pid l1 l2 (st : AppState) n i p :
  panels st !! i = Some p →
  ComicPanel.id p = pid →
  targetCount l1 ≤ length (ComicPanel.images p) →
  targetCount l1 ≤ targetCount l2 →
  ∃ p' k, panels (handleChangeSplitLayout uuidv4 pid l2
                    (handleChangeSplitLayout uuidv4 pid l1 st n).1
                    (handleChangeSplitLayout uuidv4 pid l1 st n).2).1 !! i = Some p' ∧
          n ≤ k ∧
          ComicPanel.images p'
          = take (targetCount l1) (ComicPanel.images p)
            ++ ((fun j => ComicImage.mk (uuidv4 j) "" "")
                  <$> seq k (targetCount l2 - targetCount l1)).
Proof.
  intros Hi Hid H1 H2.
  destruct (changeSplitLayout_lookup uuidv4 pid l1 _ n i p Hi) as (k1 & _ & Hl1).
  rewrite bool_decide_eq_false_2 in Hl1 by (intros Hne; by apply Hne).
  rewrite <- handleChangeSplitLayout_panels in Hl1.
  destruct (changeSplitLayout_lookup uuidv4 pid l2 _
              (handleChangeSplitLayout uuidv4 pid l1 st n).2 i _ Hl1) as (k2 & Hk2 & Hl2).
  rewrite bool_decide_eq_false_2 in Hl2
    by (intros Hne; apply Hne; by rewrite reconcile_id).
  rewrite <- handleChangeSplitLayout_panels in Hl2.
  eexists _, k2. split; [exact Hl2|]. split.
  - etrans; [|exact Hk2]. rewrite handleChangeSplitLayout_draws.
    apply changeSplitLayout_draws.
  - rewrite reconcile_images, reconcile_length, reconcile_images.
    replace (targetCount l1 - length (ComicPanel.images p)) with 0 by lia.
    simpl. rewrite app_nil_r. f_equal.
    rewrite take_ge; [done|]. rewrite length_take. lia.
Qed.

End LayoutComposition.

(** ** The grids *)

(** X4. For every split layout the slots tile the grid of the panel card:
    the cells the slots cover, every slot one cell and the slot that
    [getItemStyle] lets span two tracks two cells, are as many as the columns
    times the rows of [getGridConfig]; and only a slot the layout has is
    given a placement. *)
Theorem panel_grid_is_tiled (layout : PanelSplitLayout) :
  sum_list (cellsOf ∘ getItemStyle layout <$> seq 0 (targetCount layout))
  = (tracks "grid-cols-" (getGridConfig layout) * tracks "grid-rows-" (getGridConfig layout))%nat
  ∧ ∀ index, getItemStyle layout index ≠ noStyle → (index < targetCount layout)%nat.
Proof.
  split; [by destruct layout; vm_compute|].
  intros index. destruct layout, index as [|[|[|index]]]; vm_compute; (lia || done).
Qed.

(** X5. For every page layout and gutter size the page grid has, at the
    wide breakpoint, as many columns as the largest panel span that
    [Toolbox] leaves enabled for that layout (one for the vertical layout,
    which is no grid). *)
Theorem page_grid_columns (gridLayout : GridLayout) (gutterSize : GutterSize) :
  tracks "md:grid-cols-" (getLayoutClasses gridLayout gutterSize) = maxSpanForLayout gridLayout
  ∧ includes (gapClass gutterSize) (getLayoutClasses gridLayout gutterSize) = true.
Proof. by destruct gridLayout, gutterSize; vm_compute. Qed.

(** ** The prompt of the last panel *)

Section LastPanelPrompt.

Local Open Scope list_scope.

Lemma trim_nil_ne (s : string) : trim s ≠ "" → s ≠ "".
Proof. by intros H ->. Qed.

Lemma hasPrompt_spec (img : ComicImage.t) :
  hasPrompt img = true ↔ trim (ComicImage.prompt img) ≠ "".
Proof.
  unfold hasPrompt. split.
  - intros [_ H]%andb_prop. apply Nat.ltb_lt in H. intros E. rewrite E in H. simpl in H. lia.
  - intros H. apply andb_true_intro. split.
    + by apply truthy_string_ne, trim_nil_ne.
    + apply Nat.ltb_lt. destruct (trim (ComicImage.prompt img)); [done|simpl; lia].
Qed.

Lemma find_skips (f : ComicImage.t → bool) (l1 l2 : list ComicImage.t) :
  Forall (fun x => f x = false) l1 → List.find f (l1 ++ l2) = List.find f l2.
Proof. induction 1 as [|x l1 Hx _ IH]; [done|]. simpl. by rewrite Hx. Qed.

(** X6. [getLastPanelPrompt] looks at the last panel only and returns,
    untrimmed, the prompt of its last slot whose prompt is not blank: slots
    after it with an empty or white-space prompt are skipped, earlier panels
    and earlier slots do not matter. *)
Theorem last_panel_prompt (ps : list ComicPanel.t) (p : ComicPanel.t)
    (pre post : list ComicImage.t) (img : ComicImage.t) :
  ComicPanel.images p = pre ++ img :: post →
  trim (ComicImage.prompt img) ≠ "" →
  Forall (fun i => trim (ComicImage.prompt i) = "") post →
  getLastPanelPrompt (ps ++ [p]) = ComicImage.prompt img.
Proof.
  intros Himgs Himg Hpost. unfold getLastPanelPrompt.
  rewrite length_app. simpl. replace (length ps + 1 =? 0)%nat with false
    by (symmetry; apply Nat.eqb_neq; lia).
  rewrite last_snoc, Himgs, rev_app_distr. simpl. rewrite <- app_assoc. simpl.
  rewrite find_skips.
  - simpl. by rewrite (proj2 (hasPrompt_spec img) Himg).
  - apply Forall_forall. intros i Hi%list_elem_of_In%in_rev%list_elem_of_In.
    rewrite Forall_forall in Hpost. specialize (Hpost i Hi).
    destruct (hasPrompt i) eqn:E; [|done]. by apply hasPrompt_spec in E.
Qed.

(** X7. With no panel, or with a last panel whose slots all have a blank
    prompt, [getLastPanelPrompt] is the empty string, whatever the earlier
    panels hold. *)
Theorem last_panel_prompt_blank (ps : list ComicPanel.t) :
  from_option (fun p => Forall (fun i => trim (ComicImage.prompt i) = "")
                               (ComicPanel.images p)) True (last ps) →
  getLastPanelPrompt ps = "".
Proof.
  intros H. unfold getLastPanelPrompt. destruct (length ps =? 0)%nat; [done|].
  destruct (last ps) as [p|]; [|done]. simpl in H.
  destruct (List.find hasPrompt (rev (ComicPanel.images p))) as [img|] eqn:E; [|done].
  apply find_some in E as [Hin Himg]. apply hasPrompt_spec in Himg. destruct Himg.
  rewrite Forall_forall in H. apply H. by apply list_elem_of_In, in_rev.
Qed.

End LastPanelPrompt.

(** ** The roster editor *)

Section RosterEditor.

Local Open Scope list_scope.

(** X8. Editing a field of a character keeps the length and the order of
    the roster and every identifier; a character with another id is left as
    it is; a character with the id gets the new value in the edited field and
    keeps the other field. *)
Theorem update_character_frame (id : string) (field : CharacterField) (value : string)
    (cs : list Character.t) :
  let cs' := handleUpdateCharacter id field value cs in
  length cs' = length cs ∧
  Character.id <$> cs' = Character.id <$> cs ∧
  ∀ i c, cs !! i = Some c →
    ∃ c', cs' !! i = Some c' ∧
      (Character.id c ≠ id → c' = c) ∧
      (Character.id c = id →
         match field with
         | Field_name =>
             Character.name c' = value ∧ Character.description c' = Character.description c
         | Field_description =>
             Character.description c' = value ∧ Character.name c' = Character.name c
         end).
Proof.
  cbv zeta. unfold handleUpdateCharacter. split; [apply length_map|]. split.
  - induction cs as [|c cs IH]; [done|].
    change (map ?f (c :: cs)) with (f c :: map f cs).
    rewrite !fmap_cons, IH. f_equal. case_bool_decide; [|done]. by destruct field.
  - intros i c Hi. eexists. split.
    + change (map ?f cs) with (f <$> cs). by rewrite list_lookup_fmap, Hi.
    + split; intros Hid.
      * by rewrite bool_decide_eq_false_2.
      * rewrite bool_decide_eq_true_2 by done. by destruct field.
Qed.

(** X9. Removing the character that was just added gives the roster back,
    provided its identifier is not the identifier of an older character;
    removal always clears every character with the id. *)
Theorem add_then_remove_character (newId : string) (cs : list Character.t) :
  newId ∉ (Character.id <$> cs) →
  handleRemoveCharacter newId (handleAddCharacter newId cs) = cs ∧
  ∀ id cs0, Forall (fun c => Character.id c ≠ id) (handleRemoveCharacter id cs0).
Proof.
  intros Hfresh. split.
  - unfold handleRemoveCharacter, handleAddCharacter. rewrite List.filter_app. simpl.
    rewrite bool_decide_eq_false_2 by (intros Hne; by apply Hne). rewrite app_nil_r.
    induction cs as [|c cs IH]; [done|]. simpl.
    rewrite fmap_cons in Hfresh. apply not_elem_of_cons in Hfresh as [Hc Hcs].
    rewrite bool_decide_eq_true_2 by done. by rewrite IH.
  - intros id cs0. apply Forall_forall.
    intros c [_ Hc]%list_elem_of_In%filter_In. by apply bool_decide_eq_true_1 in Hc.
Qed.

(** X10. The edit prompt: with an empty roster the instruction goes to the
    gateway as typed; otherwise it is wrapped as an edit instruction followed
    by the consistency clause with the trimmed roster entries. *)
Theorem edit_prompt_composition (cs : list Character.t) (editPrompt : string) :
  fullEditPrompt cs editPrompt =
    match cs with
    | [] => editPrompt
    | _ :: _ =>
        "Edit Instruction: " ++ editPrompt ++ ". (Maintain character consistency: "
        ++ join ". " (map (fun c => trim (Character.name c) ++ ": "
                                    ++ trim (Character.description c)) cs) ++ ")"
    end%string.
Proof.
  unfold fullEditPrompt. destruct cs as [|c cs]; [done|].
  destruct (getCharacterContextString_cons c cs) as [Heq Hne].
  by rewrite truthy_string_ne, Heq.
Qed.

End RosterEditor.

(** ** Panel ids are unique in every reachable state *)

Section PanelIdentity.

Variable uuidv4 : nat -> string.
Hypothesis uuidv4_inj : Inj (=) (=) uuidv4.

Local Open Scope list_scope.
Local Open Scope nat_scope.

Lemma map_keeps_ids (f : ComicPanel.t → ComicPanel.t) (ps : list ComicPanel.t) :
  (∀ p, ComicPanel.id (f p) = ComicPanel.id p) →
  ComicPanel.id <$> map f ps = ComicPanel.id <$> ps.
Proof.
  intros Hid. induction ps as [|p ps IH]; [done|].
  change (map f (p :: ps)) with (f p :: map f ps). by rewrite !fmap_cons, Hid, IH.
Qed.

Lemma idsOk_ids (ps ps' : list ComicPanel.t) n m :
  ComicPanel.id <$> ps' = ComicPanel.id <$> ps → n ≤ m →
  idsOk uuidv4 ps n → idsOk uuidv4 ps' m.
Proof.
  intros Hids Hnm [Hdup Hdrawn]. split; [by rewrite Hids|].
  assert (H : Forall (drawnBelow uuidv4 m) (ComicPanel.id <$> ps')).
  { rewrite Hids, Forall_fmap. eapply Forall_impl; [exact Hdrawn|].
    intros p (j & Hj & Hid). exists j. split; [lia|done]. }
  by rewrite Forall_fmap in H.
Qed.

Lemma idsOk_map (f : ComicPanel.t → ComicPanel.t) ps n :
  (∀ p, ComicPanel.id (f p) = ComicPanel.id p) →
  idsOk uuidv4 ps n → idsOk uuidv4 (map f ps) n.
Proof. intros Hid. apply idsOk_ids; [by apply map_keeps_ids|done]. Qed.

Lemma idsOk_filter (g : ComicPanel.t → bool) ps n :
  idsOk uuidv4 ps n → idsOk uuidv4 (List.filter g ps) n.
Proof.
  intros [Hdup Hdrawn]. split.
  - clear -Hdup. induction ps as [|p ps IH]; [done|]. simpl in *.
    apply NoDup_cons in Hdup as [Hp Hdup]. destruct (g p); simpl; [|by apply IH].
    apply NoDup_cons. split; [|by apply IH].
    intros (q & Hq & Hin)%list_elem_of_fmap. apply Hp. apply list_elem_of_fmap.
    exists q. split; [done|].
    apply list_elem_of_In, filter_In in Hin as [Hin _]. by apply list_elem_of_In.
  - apply Forall_forall. intros p [Hp _]%list_elem_of_In%filter_In.
    rewrite Forall_forall in Hdrawn. by apply Hdrawn, list_elem_of_In.
Qed.

Lemma idsOk_append ps n (imgs : list ComicImage.t) l c a sp o :
  idsOk uuidv4 ps n →
  idsOk uuidv4 (ps ++ [ComicPanel.mk (uuidv4 n) imgs l c a sp o]) (S (S n)).
Proof.
  intros [Hdup Hdrawn]. split.
  - rewrite fmap_app. apply NoDup_app. split; [done|]. split; [|by apply NoDup_singleton].
    intros x (p & -> & Hp)%list_elem_of_fmap Hx. simpl in Hx.
    apply list_elem_of_singleton in Hx.
    rewrite Forall_forall in Hdrawn. destruct (Hdrawn p Hp) as (j & Hj & Hid).
    rewrite Hid in Hx. apply uuidv4_inj in Hx. lia.
  - apply Forall_app. split.
    + eapply Forall_impl; [exact Hdrawn|]. intros p (j & Hj & Hid). exists j. split; [lia|done].
    + repeat constructor. exists n. split; [lia|done].
Qed.

Lemma idsOk_resume (k : Suspended) (r : Gateway.Reply) (st : AppState) n :
  idsOk uuidv4 (panels st) n →
  idsOk uuidv4 (panels (resume uuidv4 k r st n).1.1) (resume uuidv4 k r st n).1.2.
Proof.
  intros Hok. destruct k as [cl prompt q|cl sp q]; simpl.
  - unfold handleGenerate_resume.
    destruct (Gateway.settle q r) as [imageUrl|]; [|done].
    destruct (truthy (selectedPanelId cl) && truthy (activeSlotId cl));
      [|by apply idsOk_append].
    destruct (find_panel (selectedPanelId cl) (panels cl)) as [panel|]; [|done].
    simpl. apply idsOk_map; [|done]. intros p. by case_bool_decide.
  - unfold handleEdit_resume.
    destruct (Gateway.settle q r) as [newImageUrl|]; [|done].
    simpl. apply idsOk_map; [|done]. intros p. by case_bool_decide.
Qed.

Lemma idsOk_step (s : Sys) (e : Event) :
  idsOk uuidv4 (panels (app s)) (draws s) →
  idsOk uuidv4 (panels (app (step uuidv4 s e))) (draws (step uuidv4 s e)).
Proof.
  intros Hok. unfold step. simpl.
  destruct (toolboxEffect_frame (app s) (app (dispatch uuidv4 s e))) as (-> & _).
  destruct e as [prompt style sketch|r|id|pid iid|id|id caption|id type|span|l|m|cs];
    unfold dispatch.
  - destruct (submitEnabled (app s)); [|done]. simpl.
    by destruct (handleSubmit_state prompt style sketch (app s) (app s)) as [->|[v ->]].
  - destruct (suspended s) as [k|]; [|done].
    pose proof (idsOk_resume k r (app s) (draws s) Hok) as Hres.
    by destruct (resume uuidv4 k r (app s) (draws s)) as [[st n] effects].
  - simpl. by destruct (handlePanelSelect_frame id (app s) (app s)) as (-> & _).
  - simpl. destruct (handleSlotSelect_frame pid iid (app s)
                       (handlePanelSelect pid (app s) (app s))) as (-> & _).
    by destruct (handlePanelSelect_frame pid (app s) (app s)) as (-> & _).
  - simpl. unfold handleDeletePanel. case_bool_decide; simpl; by apply idsOk_filter.
  - simpl. apply idsOk_map; [|done]. intros p. by case_bool_decide.
  - simpl. apply idsOk_map; [|done]. intros p. by case_bool_decide.
  - destruct (mode (app s)); [done| |done].
    destruct (selectedPanel (app s)) as [p|]; [|done]. simpl.
    apply idsOk_map; [|done]. intros p'. by case_bool_decide.
  - destruct (mode (app s)); [done| |done].
    destruct (selectedPanel (app s)) as [p|]; [|done]. simpl.
    eapply idsOk_ids; [apply changeSplitLayout_ids|apply changeSplitLayout_draws|done].
  - done.
  - done.
Qed.

(** X12. With a supply that never repeats an identifier, no two panels of a
    state reached from the empty store share an id, whatever the events and
    however they interleave with the requests in flight. *)
Theorem panel_ids_unique (es : list Event) :
  NoDup (ComicPanel.id <$> panels (app (run uuidv4 initialSys es))).
Proof.
  enough (H : ∀ s, idsOk uuidv4 (panels (app s)) (draws s) →
                   idsOk uuidv4 (panels (app (run uuidv4 s es))) (draws (run uuidv4 s es))).
  { apply (H initialSys). split; [apply NoDup_nil_2|by constructor]. }
  induction es as [|e es IH]; intros s Hs; [done|]. simpl. by apply IH, idsOk_step.
Qed.

End PanelIdentity.

(** ** Requests that succeed *)

Section Outcomes.

Variable uuidv4 : nat -> string.

Local Open Scope list_scope.
Local Open Scope nat_scope.

Lemma find_panel_map (f : ComicPanel.t → ComicPanel.t) sel (ps : list ComicPanel.t) :
  (∀ p, ComicPanel.id (f p) = ComicPanel.id p) →
  find_panel sel (map f ps) = f <$> find_panel sel ps.
Proof.
  intros Hid. unfold find_panel. induction ps as [|p ps IH]; [done|]. simpl.
  rewrite Hid. by destruct (bool_decide (Some (ComicPanel.id p) = sel)).
Qed.

Lemma find_panel_unique (ps : list ComicPanel.t) i p :
  NoDup (ComicPanel.id <$> ps) → ps !! i = Some p →
  find_panel (Some (ComicPanel.id p)) ps = Some p.
Proof.
  intros Hdup Hi.
  destruct (find_panel (Some (ComicPanel.id p)) ps) as [q|] eqn:E.
  - apply find_panel_Some in E as [Hq [= Hid]]. f_equal.
    eapply NoDup_id_eq; eauto. eapply list_elem_of_lookup_2; eauto.
  - apply find_panel_None in E. rewrite Forall_forall in E.
    destruct (E p); [|done]. eapply list_elem_of_lookup_2; eauto.
Qed.

(** With unique ids, a [map] that rewrites the panels with a given id
    rewrites one position. *)
Lemma map_one_panel (cond : ComicPanel.t → bool) (g : ComicPanel.t → ComicPanel.t)
    (ps : list ComicPanel.t) i p :
  NoDup (ComicPanel.id <$> ps) → ps !! i = Some p →
  (∀ q, cond q = true ↔ ComicPanel.id q = ComicPanel.id p) →
  map (fun q => if cond q then g q else q) ps = <[i := g p]> ps.
Proof.
  intros Hdup Hi Hcond. apply list_eq. intros j.
  change (map ?f ps) with (f <$> ps). rewrite list_lookup_fmap.
  destruct (decide (i = j)) as [<-|Hne].
  - rewrite Hi. simpl. rewrite (proj2 (Hcond p) eq_refl).
    by rewrite list_lookup_insert_eq by (by eapply lookup_lt_Some).
  - rewrite list_lookup_insert_ne by done.
    destruct (ps !! j) as [q|] eqn:Hj; [|done]. simpl.
    destruct (cond q) eqn:Hq; [|done]. apply Hcond in Hq.
    destruct Hne. eapply (NoDup_lookup _ i j); [exact Hdup|..].
    + by rewrite list_lookup_fmap, Hi.
    + rewrite list_lookup_fmap, Hj. simpl. by rewrite Hq.
Qed.

Lemma map_slots_ext (f g : ComicImage.t → ComicImage.t) (imgs : list ComicImage.t) :
  (∀ img, f img = g img) → map f imgs = map g imgs.
Proof. intros H. apply map_ext. exact H. Qed.

(** Rewriting the slots with an id that no slot has changes nothing. *)
Lemma map_no_slot (g : ComicImage.t → ComicImage.t) sid (imgs : list ComicImage.t) :
  find_image (Some sid) imgs = None →
  map (fun img => if bool_decide (ComicImage.id img = sid) then g img else img) imgs = imgs.
Proof.
  unfold find_image. induction imgs as [|img imgs IH]; [done|]. simpl.
  destruct (bool_decide_reflect (Some (ComicImage.id img) = Some sid)) as [|Hne]; [done|].
  intros H. rewrite IH by done.
  rewrite bool_decide_eq_false_2; [done|]. intros Heq. apply Hne. by rewrite Heq.
Qed.

(** A submission in the create mode, as one equation. *)
Lemma step_submit_generate (s : Sys) prompt style sketch :
  submitEnabled (app s) = true →
  mode (app s) = CREATE →
  trim prompt ≠ "" →
  let composed := fullPrompt style (characters (app s)) prompt in
  let q := if truthy sketch
           then Gateway.GenerateImageFromSketch (default "" sketch) composed
           else Gateway.GenerateComicImage composed Ratio_1_1 in
  step uuidv4 s (Submit prompt style sketch)
  = {| app := setLoadingState
                {| isLoading := true;
                   message := if truthy sketch then "Transforming sketch..."
                              else ("Generating " ++ styleLowerCase style ++ " art...")%string |}
                (app s);
       draws := draws s;
       suspended := Some (AwaitGenerate (app s) prompt q);
       log := log s ++ [Call q] |}.
Proof.
  intros Hidle Hmode Hprompt. cbv zeta. unfold step, dispatch. rewrite Hidle.
  unfold handleSubmit. rewrite truthy_string_ne by done. rewrite Hmode. simpl.
  rewrite toolboxEffect_same by done.
  destruct (truthy sketch) eqn:Esk; simpl; by rewrite ?Esk.
Qed.

(** X13. A submission in the create mode with a prompt that is not blank,
    made while idle, sets the busy flag and issues exactly one gateway call
    with the composed prompt: the sketch-conditioned generation when a
    non-empty sketch is uploaded, the text-to-image generation with the
    aspect ratio 1:1 otherwise; the panels, the selection, the mode and the
    roster are not touched and no identifier is drawn. *)
Theorem submit_generate_request (s : Sys) prompt style sketch :
  submitEnabled (app s) = true →
  mode (app s) = CREATE →
  trim prompt ≠ "" →
  let s1 := step uuidv4 s (Submit prompt style sketch) in
  let composed := fullPrompt style (characters (app s)) prompt in
  log s1 = log s ++ [Call (match sketch with
                           | Some sk => if truthy_string sk
                                        then Gateway.GenerateImageFromSketch sk composed
                                        else Gateway.GenerateComicImage composed Ratio_1_1
                           | None => Gateway.GenerateComicImage composed Ratio_1_1
                           end)] ∧
  isLoading (loadingState (app s1)) = true ∧
  panels (app s1) = panels (app s) ∧
  selectedPanelId (app s1) = selectedPanelId (app s) ∧
  activeSlotId (app s1) = activeSlotId (app s) ∧
  mode (app s1) = CREATE ∧
  characters (app s1) = characters (app s) ∧
  draws s1 = draws s.
Proof.
  intros Hidle Hmode Hprompt. cbv zeta. rewrite step_submit_generate by done. simpl.
  repeat split; [|done]. by destruct sketch as [sk|]; simpl; [destruct (truthy_string sk)|].
Qed.

Lemma run_two (s : Sys) (e1 e2 : Event) :
  run uuidv4 s [e1; e2] = step uuidv4 (step uuidv4 s e1) e2.
Proof. done. Qed.

(** Settling a suspended request when the selected panel keeps its id. *)
Lemma step_settle_eq (s : Sys) (k : Suspended) (r : Gateway.Reply) st n effects :
  suspended s = Some k →
  resume uuidv4 k r (app s) (draws s) = (st, n, effects) →
  ComicPanel.id <$> selectedPanel (app s) = ComicPanel.id <$> selectedPanel st →
  step uuidv4 s (Settle r)
  = {| app := st; draws := n; suspended := None; log := log s ++ effects |}.
Proof.
  intros Hk Hres Hsel. unfold step, dispatch. rewrite Hk, Hres. simpl.
  by rewrite toolboxEffect_same.
Qed.

(** A generate request with no panel selected and a successful call, as one
    equation. *)
Lemma run_generate_append (s : Sys) prompt style sketch (r : Gateway.Reply) url :
  submitEnabled (app s) = true →
  mode (app s) = CREATE →
  trim prompt ≠ "" →
  selectedPanelId (app s) = None →
  (if truthy sketch then Gateway.imageFromContent r else Gateway.generateComicImage r)
  = Some url →
  ∃ v q,
    run uuidv4 s [Submit prompt style sketch; Settle r]
    = {| app := setLoadingState idle
                  (setPanels
                     (fun prev =>
                        prev ++ [ComicPanel.mk (uuidv4 (draws s))
                                   [ComicImage.mk (uuidv4 (S (draws s))) url prompt]
                                   SINGLE "" Ratio_1_1 1 NONE])
                     (setLoadingState v (app s)));
         draws := S (S (draws s));
         suspended := None;
         log := (log s ++ [Call q]) ++ [ScrollToBottom] |}.
Proof.
  intros Hidle Hmode Hprompt Hsel Hok. rewrite run_two.
  rewrite step_submit_generate by done. eexists _, _.
  erewrite step_settle_eq; [reflexivity | done | |].
  - simpl. unfold handleGenerate_resume.
    replace (Gateway.settle _ r) with (Some url) by (by destruct (truthy sketch)).
    rewrite Hsel. simpl. reflexivity.
  - simpl. unfold selectedPanel. simpl. by rewrite Hsel, !find_panel_null.
Qed.

(** X14. A generate request made with no panel selected, whose gateway call
    succeeds, appends one panel at the end of the list: a newly drawn id, the
    SINGLE layout, one slot with a newly drawn id, the returned image and the
    prompt as typed, an empty caption and no overlay; the older panels, the
    selection (the new panel is not selected), the mode and the roster are
    as before, the busy flag is cleared and two identifiers are drawn. *)
Theorem generate_appends_panel (s : Sys) prompt style sketch (r : Gateway.Reply) url :
  submitEnabled (app s) = true →
  mode (app s) = CREATE →
  trim prompt ≠ "" →
  selectedPanelId (app s) = None →
  (if truthy sketch then Gateway.imageFromContent r else Gateway.generateComicImage r)
  = Some url →
  let s2 := run uuidv4 s [Submit prompt style sketch; Settle r] in
  panels (app s2)
  = panels (app s)
    ++ [ComicPanel.mk (uuidv4 (draws s)) [ComicImage.mk (uuidv4 (S (draws s))) url prompt]
          SINGLE "" Ratio_1_1 1 NONE] ∧
  selectedPanelId (app s2) = None ∧
  activeSlotId (app s2) = activeSlotId (app s) ∧
  mode (app s2) = CREATE ∧
  characters (app s2) = characters (app s) ∧
  loadingState (app s2) = idle ∧
  draws s2 = S (S (draws s)) ∧
  suspended s2 = None.
Proof.
  intros Hidle Hmode Hprompt Hsel Hok. cbv zeta.
  destruct (run_generate_append s prompt style sketch r url) as (v & q & ->); [done..|].
  simpl. by rewrite Hsel, Hmode.
Qed.

(** X21. After a panel was generated with no panel selected, a next-panel
    assist continues from the prompt of that panel: its context is the prompt
    just used, whatever is typed in the narrative context box. *)
Theorem continue_story_uses_last_prompt (s : Sys) prompt style sketch (r : Gateway.Reply) url
    (tb : ToolboxState) :
  submitEnabled (app s) = true →
  mode (app s) = CREATE →
  trim prompt ≠ "" →
  selectedPanelId (app s) = None →
  (if truthy sketch then Gateway.imageFromContent r else Gateway.generateComicImage r)
  = Some url →
  let s2 := run uuidv4 s [Submit prompt style sketch; Settle r] in
  getLastPanelPrompt (panels (app s2)) = prompt ∧
  storyContext NEXT_PANEL (app s2) tb = prompt.
Proof.
  intros Hidle Hmode Hprompt Hsel Hok. cbv zeta.
  destruct (run_generate_append s prompt style sketch r url) as (v & q & ->); [done..|].
  simpl.
  assert (Hlast : getLastPanelPrompt
                    (panels (app s)
                     ++ [ComicPanel.mk (uuidv4 (draws s))
                           [ComicImage.mk (uuidv4 (S (draws s))) url prompt]
                           SINGLE "" Ratio_1_1 1 NONE]) = prompt).
  { unfold getLastPanelPrompt. rewrite length_app. simpl.
    replace (length (panels (app s)) + 1 =? 0) with false
      by (symmetry; apply Nat.eqb_neq; lia).
    rewrite last_snoc. simpl.
    replace (hasPrompt _) with true; [done|]. symmetry. by apply hasPrompt_spec. }
  split; [done|]. unfold storyContext, selectedPanel. simpl.
  rewrite Hlast. by rewrite truthy_string_ne by (by apply trim_nil_ne).
Qed.

Lemma slot_cond_ext (g : ComicImage.t → ComicImage.t) sid (imgs : list ComicImage.t) :
  map (fun img => if bool_decide (Some (ComicImage.id img) = Some sid) then g img else img) imgs
  = map (fun img => if bool_decide (ComicImage.id img = sid) then g img else img) imgs.
Proof.
  apply map_ext. intros img.
  destruct (bool_decide_reflect (ComicImage.id img = sid)) as [->|Hne].
  - by rewrite bool_decide_eq_true_2.
  - rewrite bool_decide_eq_false_2; [done|]. by intros [= ?].
Qed.

(** The write-back of a slot list into the one panel that has the id. *)
Lemma write_back_one (imgs : list ComicImage.t) (ps : list ComicPanel.t) i p :
  NoDup (ComicPanel.id <$> ps) → ps !! i = Some p →
  map (fun q => if bool_decide (Some (ComicPanel.id q) = Some (ComicPanel.id p))
                then ComicPanel.with_images imgs q else q) ps
  = <[i := ComicPanel.with_images imgs p]> ps.
Proof.
  intros Hdup Hi.
  apply (map_one_panel
           (fun q => bool_decide (Some (ComicPanel.id q) = Some (ComicPanel.id p)))
           (ComicPanel.with_images imgs) ps i p Hdup Hi).
  intros q. rewrite bool_decide_eq_true. split; [by intros [= ?]|by intros ->].
Qed.

Lemma write_back_one' (imgs : list ComicImage.t) (ps : list ComicPanel.t) i p :
  NoDup (ComicPanel.id <$> ps) → ps !! i = Some p →
  map (fun q => if bool_decide (ComicPanel.id q = ComicPanel.id p)
                then ComicPanel.with_images imgs q else q) ps
  = <[i := ComicPanel.with_images imgs p]> ps.
Proof.
  intros Hdup Hi.
  apply (map_one_panel (fun q => bool_decide (ComicPanel.id q = ComicPanel.id p))
           (ComicPanel.with_images imgs) ps i p Hdup Hi).
  intros q. by rewrite bool_decide_eq_true.
Qed.

Lemma with_images_same (p : ComicPanel.t) : ComicPanel.with_images (ComicPanel.images p) p = p.
Proof. by destruct p. Qed.

(** X15. A generate request made with a panel and a slot selected, whose
    gateway call succeeds, creates no panel: in the selected panel the slot
    with the active id gets the returned image and the prompt as typed and
    keeps its id, the other slots, the slot count and all other panels are
    as before (panel ids being unique).  When no slot of the selected panel
    has the active id, as after a layout change that discarded it, the
    panels are left as they are and the image is dropped. *)
Theorem generate_fills_active_slot (s : Sys) prompt style sketch (r : Gateway.Reply) url
    pid sid i p :
  submitEnabled (app s) = true →
  mode (app s) = CREATE →
  trim prompt ≠ "" →
  selectedPanelId (app s) = Some pid → pid ≠ "" →
  activeSlotId (app s) = Some sid → sid ≠ "" →
  NoDup (ComicPanel.id <$> panels (app s)) →
  panels (app s) !! i = Some p →
  ComicPanel.id p = pid →
  (if truthy sketch then Gateway.imageFromContent r else Gateway.generateComicImage r)
  = Some url →
  let s2 := run uuidv4 s [Submit prompt style sketch; Settle r] in
  panels (app s2)
  = <[i := ComicPanel.with_images
             (map (fun img => if bool_decide (ComicImage.id img = sid)
                              then ComicImage.mk (ComicImage.id img) url prompt
                              else img)
                  (ComicPanel.images p)) p]> (panels (app s)) ∧
  (find_image (Some sid) (ComicPanel.images p) = None → panels (app s2) = panels (app s)) ∧
  selectedPanelId (app s2) = Some pid ∧
  activeSlotId (app s2) = Some sid ∧
  mode (app s2) = CREATE ∧
  loadingState (app s2) = idle ∧
  draws s2 = draws s.
Proof.
  intros Hidle Hmode Hprompt Hsel Hpid Hact Hsid Hdup Hi Hid Hok. cbv zeta. subst pid.
  rewrite run_two, step_submit_generate by done.
  pose proof (find_panel_unique _ i p Hdup Hi) as Hfind.
  erewrite step_settle_eq; [| done | |].
  2:{ simpl. unfold handleGenerate_resume.
      replace (Gateway.settle _ r) with (Some url) by (by destruct (truthy sketch)).
      rewrite Hsel, Hact. simpl. rewrite !truthy_string_ne by done. simpl.
      rewrite Hfind. reflexivity. }
  - simpl. rewrite Hsel, Hact, Hmode, slot_cond_ext.
    rewrite (write_back_one _ _ i p Hdup Hi). repeat split.
    intros Hnone. rewrite map_no_slot by done. rewrite with_images_same.
    by apply list_insert_id.
  - simpl. unfold selectedPanel. simpl. rewrite find_panel_map; [|intros q; by case_bool_decide].
    destruct (find_panel (selectedPanelId (app s)) (panels (app s))) as [q|]; [|done].
    simpl. by case_bool_decide.
Qed.

(** An edit submission that passes the guards, as one equation. *)
Lemma step_submit_edit (s : Sys) editPrompt style sketch p img :
  submitEnabled (app s) = true →
  mode (app s) = EDIT →
  trim editPrompt ≠ "" →
  selectedPanel (app s) = Some p →
  truthy (activeSlotId (app s)) = true →
  find_image (activeSlotId (app s)) (ComicPanel.images p) = Some img →
  ComicImage.url img ≠ "" →
  let q := Gateway.EditComicImage (ComicImage.url img)
             (fullEditPrompt (characters (app s)) editPrompt) in
  step uuidv4 s (Submit editPrompt style sketch)
  = {| app := setLoadingState {| isLoading := true; message := "Editing panel..." |} (app s);
       draws := draws s;
       suspended := Some (AwaitEdit (app s) p q);
       log := log s ++ [Call q] |}.
Proof.
  intros Hidle Hmode Hprompt Hp Hact Himg Hurl. cbv zeta. unfold step, dispatch.
  rewrite Hidle. unfold handleSubmit. rewrite truthy_string_ne by done. rewrite Hmode.
  simpl. rewrite (edit_accepted editPrompt (app s) p img Hp Hact Himg)
    by (by apply truthy_string_ne).
  simpl. by rewrite toolboxEffect_same.
Qed.

(** X16. An edit request on the active slot of the selected panel, when the
    slot holds an image and the gateway call succeeds: the call carries the
    url of that image and the composed edit prompt; afterwards the slot has
    the returned image and keeps its id and its prompt; the other slots, the
    slot count, all other panels (panel ids being unique), the selection and
    the mode are as before, and the busy flag is cleared. *)
Theorem edit_replaces_image (s : Sys) editPrompt style sketch (r : Gateway.Reply) url
    pid sid i p img :
  submitEnabled (app s) = true →
  mode (app s) = EDIT →
  trim editPrompt ≠ "" →
  selectedPanelId (app s) = Some pid →
  activeSlotId (app s) = Some sid → sid ≠ "" →
  NoDup (ComicPanel.id <$> panels (app s)) →
  panels (app s) !! i = Some p →
  ComicPanel.id p = pid →
  find_image (Some sid) (ComicPanel.images p) = Some img →
  ComicImage.url img ≠ "" →
  Gateway.imageFromContent r = Some url →
  let s2 := run uuidv4 s [Submit editPrompt style sketch; Settle r] in
  log s2 = log s ++ [Call (Gateway.EditComicImage (ComicImage.url img)
                             (fullEditPrompt (characters (app s)) editPrompt))] ∧
  panels (app s2)
  = <[i := ComicPanel.with_images
             (map (fun im => if bool_decide (ComicImage.id im = sid)
                             then ComicImage.mk (ComicImage.id im) url (ComicImage.prompt im)
                             else im)
                  (ComicPanel.images p)) p]> (panels (app s)) ∧
  selectedPanelId (app s2) = Some pid ∧
  activeSlotId (app s2) = Some sid ∧
  mode (app s2) = EDIT ∧
  loadingState (app s2) = idle ∧
  draws s2 = draws s.
Proof.
  intros Hidle Hmode Hprompt Hsel Hact Hsid Hdup Hi Hid Himg Hurl Hok. cbv zeta. subst pid.
  pose proof (find_panel_unique _ i p Hdup Hi) as Hfind.
  assert (Hp : selectedPanel (app s) = Some p) by (unfold selectedPanel; by rewrite Hsel).
  rewrite run_two.
  rewrite (step_submit_edit s editPrompt style sketch p img); try done.
  2:{ rewrite Hact. by apply truthy_string_ne. }
  2:{ by rewrite Hact. }
  erewrite step_settle_eq; [| done | |].
  2:{ simpl. unfold handleEdit_resume. simpl. rewrite Hok. reflexivity. }
  - simpl. rewrite Hsel, Hact, Hmode, slot_cond_ext, app_nil_r.
    by rewrite (write_back_one' _ _ i p Hdup Hi).
  - simpl. unfold selectedPanel. simpl. rewrite find_panel_map; [|intros q; by case_bool_decide].
    destruct (find_panel (selectedPanelId (app s)) (panels (app s))) as [q|]; [|done].
    simpl. by case_bool_decide.
Qed.

(** X17. With nothing in flight, a submission whose prompt is empty or white
    space only, or one made in the story mode, is ignored: no request, no
    effect, no change. *)
Theorem blank_submit_ignored (s : Sys) prompt style sketch :
  suspended s = None →
  trim prompt = "" ∨ mode (app s) = STORY →
  step uuidv4 s (Submit prompt style sketch) = s.
Proof.
  intros Hnone H. unfold step, dispatch.
  assert (Hb : handleSubmit prompt style sketch (app s) (app s)
               = {| begun_state := app s; begun_effects := []; begun_suspended := None |}).
  { unfold handleSubmit. destruct H as [->| ->]; [done|]. by case_match. }
  destruct (submitEnabled (app s)); simpl.
  - rewrite Hb. simpl. rewrite toolboxEffect_same by done. rewrite app_nil_r.
    destruct s; simpl in *. by subst.
  - rewrite toolboxEffect_same by done. by destruct s.
Qed.

End Outcomes.

(** ** Selecting a panel *)

Section PanelSelection.

Variable uuidv4 : nat -> string.

Local Open Scope list_scope.

(** X18. A click on a panel that exists: when it is the selected panel,
    nothing changes; otherwise it becomes the selected panel, its first slot
    becomes the active slot, the mode becomes the edit mode unless it is the
    story mode, and the panels are not touched. *)
Theorem click_panel_selects (s : Sys) (id : string) (p : ComicPanel.t) :
  find_panel (Some id) (panels (app s)) = Some p →
  let st' := app (step uuidv4 s (ClickPanel id)) in
  (selectedPanelId (app s) = Some id → st' = app s) ∧
  (selectedPanelId (app s) ≠ Some id →
     selectedPanelId st' = Some id ∧
     activeSlotId st'
     = match ComicPanel.images p with
       | img :: _ => Some (ComicImage.id img)
       | [] => activeSlotId (app s)
       end ∧
     mode st' = (if bool_decide (mode (app s) = STORY) then STORY else EDIT) ∧
     panels st' = panels (app s)).
Proof.
  intros Hp. cbv zeta. unfold step, dispatch. simpl. split.
  - intros Hsel. unfold handlePanelSelect.
    rewrite bool_decide_eq_false_2 by (intros Hne; by apply Hne).
    by apply toolboxEffect_same.
  - intros Hsel.
    set (st1 := handlePanelSelect id (app s) (app s)).
    assert (Hst1 : selectedPanelId st1 = Some id ∧ panels st1 = panels (app s) ∧
                   mode st1 = mode (app s) ∧
                   activeSlotId st1 = match ComicPanel.images p with
                                      | img :: _ => Some (ComicImage.id img)
                                      | [] => activeSlotId (app s)
                                      end).
    { unfold st1, handlePanelSelect. rewrite bool_decide_eq_true_2 by done. rewrite Hp.
      by destruct (ComicPanel.images p). }
    destruct Hst1 as (Hs1 & Hp1 & Hm1 & Ha1).
    destruct (toolboxEffect_frame (app s) st1) as (-> & _ & _ & -> & ->).
    split; [done|]. split; [done|]. split; [|done].
    rewrite (toolboxEffect_mode (app s) st1 _ (Some id) eq_refl).
    + rewrite bool_decide_eq_true_2.
      * rewrite Hm1. destruct (mode (app s)); by vm_compute.
      * unfold selectedPanel. intros Hbefore.
        destruct (find_panel (selectedPanelId (app s)) (panels (app s))) as [q|] eqn:Eq;
          [|done].
        apply find_panel_Some in Eq as [_ Hq]. simpl in Hbefore. congruence.
    + unfold selectedPanel. rewrite Hs1, Hp1, Hp. simpl.
      by apply find_panel_Some in Hp as [_ [= ->]].
Qed.

End PanelSelection.

(** ** The gateway wrappers *)

Section Wrappers.

Local Open Scope list_scope.

(** X19. The wrappers for the multimodal model return the first part of the
    reply that carries inline data that is not empty, as a PNG data url;
    parts without inline data before it, such as text parts, are skipped and
    the parts after it are ignored. *)
Theorem first_inline_image_wins (pre post : list Gateway.Part) (part : Gateway.Part)
    (data : string) (bytes : option string) :
  Forall (fun x => truthy (Gateway.inlineData_data x) = false) pre →
  Gateway.inlineData_data part = Some data →
  data ≠ "" →
  Gateway.imageFromContent
    (Some {| Gateway.imageBytes := bytes; Gateway.parts := Some (pre ++ part :: post) |})
  = Some ("data:image/png;base64," ++ data)%string.
Proof.
  intros Hpre Hpart Hdata. unfold Gateway.imageFromContent. simpl.
  assert (Hfirst : Gateway.firstInlineImage (pre ++ part :: post)
                   = ("data:image/png;base64," ++ data)%string).
  { induction Hpre as [|x pre Hx _ IH]; simpl.
    - rewrite Hpart. simpl. by rewrite truthy_string_ne.
    - by rewrite Hx. }
  rewrite Hfirst. unfold truthy_string. by rewrite append_cons.
Qed.

Lemma split_go_none (sep cur s : string) :
  includes sep s = false → split_go sep 0 cur s = [(cur ++ s)%string].
Proof.
  revert cur. induction s as [|c s IH]; intros cur H; simpl.
  - by rewrite append_nil_r.
  - simpl in H. apply orb_false_elim in H as [Hpre Hrest]. rewrite Hpre.
    rewrite IH by done. by rewrite append_assoc.
Qed.

Lemma extractBase64_jpeg (bytes : string) :
  includes "base64," bytes = false →
  extractBase64 ("data:image/jpeg;base64," ++ bytes) = bytes.
Proof.
  intros H. unfold extractBase64.
  assert (Hinc : includes "base64," ("data:image/jpeg;base64," ++ bytes) = true)
    by exact (includes_infix "data:image/jpeg;" "base64," bytes).
  rewrite Hinc.
  unfold split. rewrite !append_cons. simpl.
  change ("" ++ bytes)%string with bytes.
  replace (String.prefix "" bytes) with true by (by destruct bytes).
  simpl. by rewrite split_go_none.
Qed.

Lemma extractBase64_png (bytes : string) :
  includes "base64," bytes = false →
  extractBase64 ("data:image/png;base64," ++ bytes) = bytes.
Proof.
  intros H. unfold extractBase64.
  assert (Hinc : includes "base64," ("data:image/png;base64," ++ bytes) = true)
    by exact (includes_infix "data:image/png;" "base64," bytes).
  rewrite Hinc.
  unfold split. rewrite !append_cons. simpl.
  change ("" ++ bytes)%string with bytes.
  replace (String.prefix "" bytes) with true by (by destruct bytes).
  simpl. by rewrite split_go_none.
Qed.

(** X20. Round trip between the wrappers: the url that [generateComicImage]
    returns for the bytes of a reply, given to [editComicImage], puts those
    very bytes into the request, and so does the url that an edit or a sketch
    generation returns, provided the bytes do not contain the text [base64,]
    (no base64 text does); the request always declares the JPEG type, also
    for a PNG url; a string without [base64,] is sent as it is. *)
Theorem edit_request_round_trip (bytes editPrompt : string) :
  includes "base64," bytes = false →
  bytes ≠ "" →
  ∃ jpegUrl pngUrl,
    Gateway.generateComicImage
      (Some {| Gateway.imageBytes := Some bytes; Gateway.parts := None |}) = Some jpegUrl ∧
    Gateway.imageFromContent
      (Some {| Gateway.imageBytes := None;
               Gateway.parts := Some [ {| Gateway.inlineData_data := Some bytes |} ] |})
    = Some pngUrl ∧
    Service.inline_data (editComicImage_request jpegUrl editPrompt) = bytes ∧
    Service.inline_data (editComicImage_request pngUrl editPrompt) = bytes ∧
    Service.inline_mimeType (editComicImage_request pngUrl editPrompt) = "image/jpeg" ∧
    Service.inline_data (editComicImage_request bytes editPrompt) = bytes.
Proof.
  intros Hno Hne.
  exists ("data:image/jpeg;base64," ++ bytes)%string, ("data:image/png;base64," ++ bytes)%string.
  split; [|split; [|split; [|split; [|split]]]].
  - unfold Gateway.generateComicImage. simpl. by rewrite truthy_string_ne.
  - unfold Gateway.imageFromContent. simpl. rewrite (truthy_string_ne bytes) by done.
    unfold truthy_string. by rewrite append_cons.
  - simpl. by apply extractBase64_jpeg.
  - simpl. by apply extractBase64_png.
  - done.
  - simpl. unfold extractBase64. by rewrite Hno.
Qed.

End Wrappers.

(** ** The narrative assistant *)

Section Narrative.

Lemma trimStart_app_blank (ws s : string) :
  trimStart ws = "" → trimStart (ws ++ s) = trimStart s.
Proof.
  induction ws as [|c ws IH]; [done|]. rewrite append_cons. simpl.
  destruct (isWhiteSpace c); [exact IH|done].
Qed.

Lemma trimEnd_app_blank (s ws : string) :
  trimEnd ws = "" → trimEnd (s ++ ws) = trimEnd s.
Proof.
  intros Hws. induction s as [|c s IH]; [done|]. rewrite append_cons. simpl.
  by rewrite IH.
Qed.

Lemma isQuote_not_space (q : ascii) : isQuote q = true → isWhiteSpace q = false.
Proof.
  unfold isQuote. intros [H|H]%orb_prop; apply Ascii.eqb_eq in H; by subst.
Qed.

Lemma dropLastQuote_snoc (s : string) (q : ascii) :
  isQuote q = true → dropLastQuote (s ++ String q "") = s.
Proof.
  intros Hq. induction s as [|c s IH].
  - change ("" ++ String q "")%string with (String q ""). simpl. by rewrite Hq.
  - rewrite append_cons. destruct s as [|a s0].
    + change ("" ++ String q "")%string with (String q ""). simpl. by rewrite Hq.
    + rewrite append_cons in *.
      change (dropLastQuote (String c (String a ?x)))
        with (String c (dropLastQuote (String a x))).
      by rewrite IH.
Qed.

(** X22. A reply text wrapped in one pair of quotes, double or single, with
    white space around it, is returned without the white space and without
    that pair of quotes; what is inside is returned as it is, further quotes
    included. *)
Theorem narrative_reply_unquoted (ws1 ws2 inner : string) (q1 q2 : ascii) :
  trimStart ws1 = "" →
  trimEnd ws2 = "" →
  isQuote q1 = true →
  isQuote q2 = true →
  generateNarrativeElement (Some (Some (ws1 ++ String q1 (inner ++ String q2 ws2))))
  = Some inner.
Proof.
  intros Hws1 Hws2 Hq1 Hq2. unfold generateNarrativeElement. simpl. f_equal.
  unfold trim. rewrite trimStart_app_blank by done. simpl.
  rewrite (isQuote_not_space q1 Hq1).
  replace (String q1 (inner ++ String q2 ws2))
    with ((String q1 inner ++ String q2 "") ++ ws2)%string
    by (by rewrite append_assoc, !append_cons).
  rewrite trimEnd_app_blank by done.
  rewrite trimEnd_app by (simpl; by rewrite (isQuote_not_space q2 Hq2)).
  simpl. rewrite (isQuote_not_space q2 Hq2). rewrite append_cons.
  unfold stripQuotes. simpl. rewrite Hq1. by apply dropLastQuote_snoc.
Qed.

Lemma includes_skip (a needle s : string) :
  includes needle s = true → includes needle (a ++ s) = true.
Proof.
  intros H. induction a as [|c a IH]; [done|]. rewrite append_cons. simpl.
  rewrite IH. apply orb_true_r.
Qed.

Lemma includes_head (needle rest : string) : includes needle (needle ++ rest) = true.
Proof. exact (includes_infix "" needle rest). Qed.

Lemma includes_head3 (a b c rest : string) :
  includes (a ++ b ++ c) (a ++ b ++ c ++ rest) = true.
Proof.
  rewrite <- (append_assoc b c rest), <- (append_assoc a (b ++ c) rest).
  apply includes_head.
Qed.

Lemma includes_self (needle : string) : includes needle needle = true.
Proof. rewrite <- (append_nil_r needle) at 2. apply includes_head. Qed.

(** X23. Every narrative prompt holds the context between double quotes;
    the plot and the next-panel prompts hold the roster context when it is
    not empty; the prompt a story assist sends is the template for its kind,
    filled with the context of [storyContext] and the trimmed roster. *)
Theorem narrative_prompt_holds_context (type : NarrativeType) (context cc : string)
    (r : option (option string)) (tb : ToolboxState) (st : AppState) :
  includes (dq ++ context ++ dq) (narrativePrompt type context cc) = true ∧
  (type ≠ DIALOGUE → cc ≠ "" → includes cc (narrativePrompt type context cc) = true) ∧
  (storyAssist type r tb st).1.1.1
  = narrativePrompt type (storyContext type st tb) (getCharacterContextString (characters st)).
Proof.
  split; [|split].
  - destruct type; unfold narrativePrompt;
      repeat first [apply includes_head3 | apply includes_skip].
  - intros Htype Hcc. destruct type; [|done|]; unfold narrativePrompt;
      rewrite (truthy_string_ne cc) by done; rewrite !append_assoc;
      repeat first [apply includes_head | apply includes_skip].
  - unfold storyAssist, handleNarrativeAssist_begin, handleNarrativeAssist_resume,
      handleStoryAssist_resume.
    destruct (generateNarrativeElement r); destruct type; simpl;
      by destruct (selectedPanel st).
Qed.

(** X24. A dialogue assist for the selected panel overwrites its caption
    with the cleaned reply, and with the empty string when the client call
    rejects or the reply has no text: the caption that was there is lost and,
    on a rejection, an alert is raised.  The panels with another id, the slots,
    the mode and the prompt box are not touched; the busy flag and the
    narrative context box are cleared. *)
Theorem story_dialogue_overwrites_caption (r : option (option string)) (tb : ToolboxState)
    (st : AppState) (sp : ComicPanel.t) :
  selectedPanel st = Some sp →
  let result := match r with
                | Some (Some t) => stripQuotes (trim t)
                | _ => ""
                end in
  let '(_, tb', st', effects) := storyAssist DIALOGUE r tb st in
  panels st'
  = map (fun p => if bool_decide (ComicPanel.id p = ComicPanel.id sp)
                  then ComicPanel.with_caption result p else p) (panels st) ∧
  effects = match r with
            | None => [ConsoleError; Alert "Failed to generate narrative element."]
            | Some _ => []
            end ∧
  loadingState st' = idle ∧
  mode st' = mode st ∧
  selectedPanelId st' = selectedPanelId st ∧
  tb_prompt tb' = tb_prompt tb ∧
  tb_narrativeContext tb' = "".
Proof.
  intros Hsp. cbv zeta.
  unfold storyAssist, handleNarrativeAssist_begin, handleNarrativeAssist_resume,
    handleStoryAssist_resume. rewrite Hsp.
  by destruct r as [[t|]|].
Qed.

(** X25. A plot or next-panel assist puts the cleaned reply into the prompt
    box and switches to the create mode, also when the client call rejects:
    the prompt box is then emptied.  The panels and the selection are not
    touched; the busy flag and the narrative context box are cleared. *)
Theorem story_idea_fills_prompt_box (type : NarrativeType) (r : option (option string))
    (tb : ToolboxState) (st : AppState) :
  type ≠ DIALOGUE →
  let result := match r with
                | Some (Some t) => stripQuotes (trim t)
                | _ => ""
                end in
  let '(_, tb', st', effects) := storyAssist type r tb st in
  tb_prompt tb' = result ∧
  mode st' = CREATE ∧
  panels st' = panels st ∧
  selectedPanelId st' = selectedPanelId st ∧
  activeSlotId st' = activeSlotId st ∧
  loadingState st' = idle ∧
  tb_narrativeContext tb' = "" ∧
  tb_uploadedSketch tb' = tb_uploadedSketch tb.
Proof.
  intros Htype. cbv zeta.
  unfold storyAssist, handleNarrativeAssist_begin, handleNarrativeAssist_resume,
    handleStoryAssist_resume.
  destruct type; [|done|]; destruct r as [[t|]|]; simpl; by destruct (selectedPanel st).
Qed.

End Narrative.

(** ** Instances of the further properties *)

Lemma layout_grow_then_shrink_witness :
  ∃ p', panels (handleChangeSplitLayout uuidDemo "u0" SINGLE
                  (handleChangeSplitLayout uuidDemo "u0" QUAD (app onePanel) 2).1
                  (handleChangeSplitLayout uuidDemo "u0" QUAD (app onePanel) 2).2).1 !! 0
        = Some p' ∧
        ComicPanel.images p'
        = [ComicImage.mk "u1" "data:image/jpeg;base64,AAAA" "a cat"].
Proof.
  destruct (layout_grow_then_shrink uuidDemo "u0" QUAD SINGLE (app onePanel) 2 0
              (ComicPanel.mk "u0" [ComicImage.mk "u1" "data:image/jpeg;base64,AAAA" "a cat"]
                 SINGLE "" Ratio_1_1 1 NONE))
    as (p' & Hp' & _ & Himgs & _); [reflexivity|reflexivity|vm_compute; lia|vm_compute; lia|].
  exists p'. split; [exact Hp'|exact Himgs].
Defined.

Lemma layout_shrink_then_grow_witness :
  ∃ p' k, panels (handleChangeSplitLayout uuidDemo "u0" DOUBLE_V
                    (handleChangeSplitLayout uuidDemo "u0" SINGLE (app secondPanelSelected) 5).1
                    (handleChangeSplitLayout uuidDemo "u0" SINGLE (app secondPanelSelected) 5).2).1
                 !! 0 = Some p' ∧
          ComicPanel.images p'
          = [ComicImage.mk "u1" "data:image/jpeg;base64,AAAA" "a cat";
             ComicImage.mk (uuidDemo k) "" ""].
Proof.
  destruct (layout_shrink_then_grow uuidDemo "u0" SINGLE DOUBLE_V (app secondPanelSelected) 5 0
              (ComicPanel.mk "u0" [ComicImage.mk "u1" "data:image/jpeg;base64,AAAA" "a cat";
                                    ComicImage.mk "u4" "" ""]
                 DOUBLE_V "" Ratio_1_1 1 NONE))
    as (p' & k & Hp' & _ & Himgs); [reflexivity|reflexivity|vm_compute; lia|vm_compute; lia|].
  exists p', k. split; [exact Hp'|exact Himgs].
Defined.

Lemma last_panel_prompt_witness :
  getLastPanelPrompt [blankPanel; promptedPanel] = "a cat".
Proof.
  apply (last_panel_prompt [blankPanel] promptedPanel []
           [ComicImage.mk "b" "" " "]
           (ComicImage.mk "a" "data:image/jpeg;base64,AAAA" "a cat")).
  - reflexivity.
  - by vm_compute.
  - by repeat constructor.
Defined.

Lemma last_panel_prompt_blank_witness :
  getLastPanelPrompt [promptedPanel; blankPanel] = "".
Proof.
  apply last_panel_prompt_blank. simpl. by repeat constructor.
Defined.

Lemma add_then_remove_character_witness :
  handleRemoveCharacter "c2"
    (handleAddCharacter "c2" [Character.mk "c1" "Raven" "black hair"])
  = [Character.mk "c1" "Raven" "black hair"].
Proof.
  apply add_then_remove_character.
  apply not_elem_of_cons. split; [done|apply not_elem_of_nil].
Defined.

Lemma panel_ids_unique_witness :
  NoDup (ComicPanel.id <$> panels (app (run uuidDemo initialSys layoutChangeDuringFill))).
Proof. apply (panel_ids_unique uuidDemo uuidDemo_inj). Defined.

Lemma submit_generate_request_witness :
  log (step uuidDemo initialSys (Submit "a cat" NOIR None))
  = [Call (Gateway.GenerateComicImage (fullPrompt NOIR [] "a cat") Ratio_1_1)].
Proof.
  eapply (submit_generate_request uuidDemo initialSys "a cat" NOIR None);
    [reflexivity|reflexivity|by vm_compute].
Defined.

Lemma generate_appends_panel_witness :
  panels (app (run uuidDemo initialSys [Submit "a cat" NOIR None; Settle (replyJpeg "AAAA")]))
  = [ComicPanel.mk "u0" [ComicImage.mk "u1" "data:image/jpeg;base64,AAAA" "a cat"]
       SINGLE "" Ratio_1_1 1 NONE].
Proof.
  eapply (generate_appends_panel uuidDemo initialSys "a cat" NOIR None (replyJpeg "AAAA"));
    [reflexivity|reflexivity|by vm_compute|reflexivity|reflexivity].
Defined.

Lemma generate_fills_active_slot_witness :
  panels (app (run uuidDemo slotSelectedForFill
                 [Submit "a dog" NOIR None; Settle (replyJpeg "CCCC")]))
  = [ComicPanel.mk "u0" [ComicImage.mk "u1" "data:image/jpeg;base64,CCCC" "a dog"]
       SINGLE "" Ratio_1_1 1 NONE].
Proof.
  eapply (generate_fills_active_slot uuidDemo slotSelectedForFill "a dog" NOIR None
            (replyJpeg "CCCC") "data:image/jpeg;base64,CCCC" "u0" "u1" 0
            (ComicPanel.mk "u0" [ComicImage.mk "u1" "data:image/jpeg;base64,AAAA" "a cat"]
               SINGLE "" Ratio_1_1 1 NONE));
    try reflexivity; try (by vm_compute).
  apply (bool_decide_unpack _). by vm_compute.
Defined.

Lemma edit_replaces_image_witness :
  panels (app (run uuidDemo slotSelected
                 [Submit "make it red" MODERN None; Settle (replyPng "BBBB")]))
  = [ComicPanel.mk "u0" [ComicImage.mk "u1" "data:image/png;base64,BBBB" "a cat"]
       SINGLE "" Ratio_1_1 1 NONE].
Proof.
  eapply (edit_replaces_image uuidDemo slotSelected "make it red" MODERN None
            (replyPng "BBBB") "data:image/png;base64,BBBB" "u0" "u1" 0
            (ComicPanel.mk "u0" [ComicImage.mk "u1" "data:image/jpeg;base64,AAAA" "a cat"]
               SINGLE "" Ratio_1_1 1 NONE)
            (ComicImage.mk "u1" "data:image/jpeg;base64,AAAA" "a cat"));
    try reflexivity; try (by vm_compute).
  apply (bool_decide_unpack _). by vm_compute.
Defined.

Lemma blank_submit_ignored_witness :
  step uuidDemo onePanel (Submit "   " NOIR None) = onePanel.
Proof.
  apply blank_submit_ignored; [reflexivity|left; reflexivity].
Defined.

Lemma click_panel_selects_witness :
  selectedPanelId (app (step uuidDemo onePanel (ClickPanel "u0"))) = Some "u0" ∧
  activeSlotId (app (step uuidDemo onePanel (ClickPanel "u0"))) = Some "u1" ∧
  mode (app (step uuidDemo onePanel (ClickPanel "u0"))) = EDIT.
Proof.
  destruct (click_panel_selects uuidDemo onePanel "u0"
              (ComicPanel.mk "u0" [ComicImage.mk "u1" "data:image/jpeg;base64,AAAA" "a cat"]
                 SINGLE "" Ratio_1_1 1 NONE) eq_refl) as [_ H].
  destruct H as (H1 & H2 & H3 & _); [by vm_compute|]. split; [exact H1|]. split; [exact H2|].
  exact H3.
Defined.

Lemma first_inline_image_wins_witness :
  Gateway.imageFromContent
    (Some {| Gateway.imageBytes := None;
             Gateway.parts := Some [ {| Gateway.inlineData_data := None |};
                                     {| Gateway.inlineData_data := Some "BBBB" |};
                                     {| Gateway.inlineData_data := Some "DDDD" |} ] |})
  = Some "data:image/png;base64,BBBB".
Proof.
  apply (first_inline_image_wins [ {| Gateway.inlineData_data := None |} ]
           [ {| Gateway.inlineData_data := Some "DDDD" |} ]
           {| Gateway.inlineData_data := Some "BBBB" |} "BBBB" None).
  - by repeat constructor.
  - reflexivity.
  - done.
Defined.

Lemma edit_request_round_trip_witness :
  Service.inline_data (editComicImage_request "data:image/jpeg;base64,AAAA" "make it red")
  = "AAAA".
Proof.
  destruct (edit_request_round_trip "AAAA" "make it red") as (j & g & Hj & _ & H & _);
    [reflexivity|done|].
  vm_compute in Hj. injection Hj as <-. exact H.
Defined.

Lemma continue_story_uses_last_prompt_witness :
  storyContext NEXT_PANEL
    (app (run uuidDemo initialSys [Submit "a cat" NOIR None; Settle (replyJpeg "AAAA")]))
    {| tb_prompt := ""; tb_style := MODERN; tb_narrativeContext := "a chase";
       tb_uploadedSketch := None |}
  = "a cat".
Proof.
  eapply (continue_story_uses_last_prompt uuidDemo initialSys "a cat" NOIR None
            (replyJpeg "AAAA"));
    [reflexivity|reflexivity|by vm_compute|reflexivity|reflexivity].
Defined.

Lemma narrative_reply_unquoted_witness :
  generateNarrativeElement (Some (Some (" " ++ dq ++ "Run!" ++ dq ++ nl))) = Some "Run!".
Proof.
  apply (narrative_reply_unquoted " " nl "Run!" "034"%char "034"%char); reflexivity.
Defined.

Lemma story_dialogue_overwrites_caption_witness :
  ComicPanel.caption
    <$> panels (storyAssist DIALOGUE None initialToolbox
                  (handleUpdateCaption "u2" "Hello" (app secondPanelSelected))).1.2
  = [""; ""].
Proof.
  pose proof (story_dialogue_overwrites_caption None initialToolbox
                (handleUpdateCaption "u2" "Hello" (app secondPanelSelected))
                (ComicPanel.mk "u2" [ComicImage.mk "u3" "data:image/jpeg;base64,CCCC" "a dog"]
                   SINGLE "Hello" Ratio_1_1 1 NONE) eq_refl) as H.
  cbv zeta in H.
  destruct (storyAssist DIALOGUE None initialToolbox
              (handleUpdateCaption "u2" "Hello" (app secondPanelSelected)))
    as [[[sent tb'] st'] effects].
  simpl. destruct H as (-> & _). by vm_compute.
Defined.

Lemma story_idea_fills_prompt_box_witness :
  tb_prompt (storyAssist PLOT (Some (Some "A rooftop chase at night.")) initialToolbox
               (app onePanel)).1.1.2
  = "A rooftop chase at night.".
Proof.
  pose proof (story_idea_fills_prompt_box PLOT (Some (Some "A rooftop chase at night."))
                initialToolbox (app onePanel)) as H.
  cbv zeta in H.
  destruct (storyAssist PLOT (Some (Some "A rooftop chase at night.")) initialToolbox
              (app onePanel)) as [[[sent tb'] st'] effects].
  simpl. destruct H as (-> & _); [done|]. by vm_compute.
Defined.

Lemma click_slot_same_panel_witness :
  mode (app (step uuidDemo slotSelectedForFill (ClickSlot "u0" "u1"))) = EDIT.
Proof.
  apply (click_slot_same_panel uuidDemo slotSelectedForFill "u0" "u1"
           (ComicPanel.mk "u0" [ComicImage.mk "u1" "data:image/jpeg;base64,AAAA" "a cat"]
              SINGLE "" Ratio_1_1 1 NONE)
           (ComicImage.mk "u1" "data:image/jpeg;base64,AAAA" "a cat"));
    reflexivity.
Defined.

Lemma click_slot_other_panel_witness :
  mode (app (step uuidDemo onePanel (ClickSlot "u0" "u1"))) = EDIT
  ∨ mode (app (step uuidDemo secondPanelSelected (ClickSlot "u0" "u4"))) = EDIT.
Proof.
  right.
  apply (click_slot_other_panel uuidDemo secondPanelSelected "u0" "u4"
           (ComicPanel.mk "u0" [ComicImage.mk "u1" "data:image/jpeg;base64,AAAA" "a cat";
                                 ComicImage.mk "u4" "" ""]
              DOUBLE_V "" Ratio_1_1 1 NONE)
           (ComicImage.mk "u4" "" "")); [by vm_compute|reflexivity..].
Defined.
